(** * The lesson-text image search route: [app/routes/search/index.tsx]

    A shallow embedding of the route's [action] (and [loader]) together with
    the parts of the JavaScript host it runs on: strings as sequences of
    UTF-16 code units, [JSON.parse], promises joined by [Promise.all], and the
    two outbound HTTP capabilities reached through axios. *)

From Stdlib Require Import List NArith String Ascii Bool Arith Lia Permutation.
Import ListNotations.

Set Implicit Arguments.

(** ** JavaScript strings *)

(** A JavaScript string is a finite sequence of 16-bit code units. *)
Definition jsstring : Type := list N.

Module JS.

(** The code units of a source literal. Literals are written in this file
    as UTF-8 text; [utf16] decodes them to the code units the JavaScript
    engine holds (one unit per code point of the basic plane, a surrogate
    pair above it). *)
Fixpoint utf16 (s : string) : jsstring :=
  match s with
  | EmptyString => []
  | String a rest =>
      let b0 := N_of_ascii a in
      if (b0 <? 192)%N then b0 :: utf16 rest
      else if (b0 <? 224)%N then
        match rest with
        | String b rest1 =>
            ((b0 mod 32) * 64 + N_of_ascii b mod 64)%N :: utf16 rest1
        | EmptyString => [b0]
        end
      else if (b0 <? 240)%N then
        match rest with
        | String b (String c rest2) =>
            ((b0 mod 16) * 4096 + (N_of_ascii b mod 64) * 64
             + N_of_ascii c mod 64)%N :: utf16 rest2
        | _ => b0 :: utf16 rest
        end
      else
        match rest with
        | String b (String c (String d rest3)) =>
            let cp := ((b0 mod 8) * 262144 + (N_of_ascii b mod 64) * 4096
                       + (N_of_ascii c mod 64) * 64 + N_of_ascii d mod 64)%N in
            let cp' := (cp - 65536)%N in
            (55296 + cp' / 1024)%N :: (56320 + cp' mod 1024)%N :: utf16 rest3
        | _ => b0 :: utf16 rest
        end
  end.

(** The quotation mark, U+0022. *)
Definition dquote : jsstring := [34%N].

(** The line feed, U+000A. *)
Definition LF : jsstring := [10%N].

(** [ToString] on the two kinds of value the route passes to a string
    context: a string, or [undefined]/[null] (given by [absent]). *)
Definition ToString (absent : string) (v : option jsstring) : jsstring :=
  match v with
  | Some s => s
  | None => utf16 absent
  end.

(** [ToBoolean] on an environment entry: [undefined] and the empty string
    are falsy, every other string is truthy. *)
Definition truthy (v : option jsstring) : bool :=
  match v with
  | Some (_ :: _) => true
  | _ => false
  end.

End JS.

(** ** JSON values and [JSON.parse] *)

(** The values [JSON.parse] produces. A number keeps its lexeme: its
    double-precision value is not interpreted here, the route only passes
    numbers on. An object keeps its members in source order. *)
#[warnings="-register-all"] Inductive JSON : Type :=
| JNull
| JBool (b : bool)
| JNumber (lexeme : jsstring)
| JString (s : jsstring)
| JArray (elements : list JSON)
| JObject (members : list (jsstring * JSON)).

Module JSONParse.

(** *** Lexical grammar (ECMA-404) *)

Inductive Token : Type :=
| TLBracket | TRBracket | TLBrace | TRBrace | TComma | TColon
| TLit (v : JSON)
| TNum (lexeme : jsstring)
| TStr (s : jsstring).

(** Where the scanner stands inside a number: an optional minus sign, an
    integer part (a single zero, or a nonzero digit followed by digits), an
    optional fraction (a dot and at least one digit) and an optional
    exponent (e or E, an optional sign, at least one digit). *)
Inductive NumState : Type :=
| NMinus | NZero | NInt | NDot | NFrac | NExp | NExpSign | NExpDigits.

(** The scanner's state. Accumulators hold code units in reverse. *)
Inductive LexState : Type :=
| LStart
| LString (acc : jsstring)
| LEscape (acc : jsstring)
| LUnicode (acc : jsstring) (count : nat) (value : N)
| LNumber (st : NumState) (acc : jsstring)
| LLiteral (expected : jsstring) (v : JSON).

Definition is_digit (c : N) : bool := (48 <=? c)%N && (c <=? 57)%N.
Definition is_digit19 (c : N) : bool := (49 <=? c)%N && (c <=? 57)%N.

Definition is_whitespace (c : N) : bool :=
  (c =? 32)%N || (c =? 9)%N || (c =? 10)%N || (c =? 13)%N.

Definition hex_value (c : N) : option N :=
  if is_digit c then Some (c - 48)%N
  else if (65 <=? c)%N && (c <=? 70)%N then Some (c - 55)%N
  else if (97 <=? c)%N && (c <=? 102)%N then Some (c - 87)%N
  else None.

(** A number may end in these states. *)
Definition num_accepting (st : NumState) : bool :=
  match st with
  | NZero | NInt | NFrac | NExpDigits => true
  | _ => false
  end.

(** The next state inside a number, when [c] continues it. *)
Definition num_step (st : NumState) (c : N) : option NumState :=
  let dot := (c =? 46)%N in
  let e := (c =? 101)%N || (c =? 69)%N in
  let sign := (c =? 43)%N || (c =? 45)%N in
  match st with
  | NMinus => if (c =? 48)%N then Some NZero
              else if is_digit19 c then Some NInt else None
  | NZero => if dot then Some NDot else if e then Some NExp else None
  | NInt => if is_digit c then Some NInt
            else if dot then Some NDot else if e then Some NExp else None
  | NDot => if is_digit c then Some NFrac else None
  | NFrac => if is_digit c then Some NFrac else if e then Some NExp else None
  | NExp => if sign then Some NExpSign
            else if is_digit c then Some NExpDigits else None
  | NExpSign => if is_digit c then Some NExpDigits else None
  | NExpDigits => if is_digit c then Some NExpDigits else None
  end.

(** A code unit met between tokens: the new state and the tokens emitted;
    [None] is a syntax error. *)
Definition start_step (c : N) : option (LexState * list Token) :=
  if is_whitespace c then Some (LStart, [])
  else match c with
       | 91%N => Some (LStart, [TLBracket])
       | 93%N => Some (LStart, [TRBracket])
       | 123%N => Some (LStart, [TLBrace])
       | 125%N => Some (LStart, [TRBrace])
       | 44%N => Some (LStart, [TComma])
       | 58%N => Some (LStart, [TColon])
       | 34%N => Some (LString [], [])
       | 45%N => Some (LNumber NMinus [c], [])
       | 48%N => Some (LNumber NZero [c], [])
       | 116%N => Some (LLiteral (JS.utf16 "rue") (JBool true), [])
       | 102%N => Some (LLiteral (JS.utf16 "alse") (JBool false), [])
       | 110%N => Some (LLiteral (JS.utf16 "ull") JNull, [])
       | _ => if is_digit19 c then Some (LNumber NInt [c], []) else None
       end.

(** The character an escape sequence of one letter stands for. *)
Definition escape_char (c : N) : option N :=
  match c with
  | 34%N => Some 34%N
  | 92%N => Some 92%N
  | 47%N => Some 47%N
  | 98%N => Some 8%N
  | 102%N => Some 12%N
  | 110%N => Some 10%N
  | 114%N => Some 13%N
  | 116%N => Some 9%N
  | _ => None
  end.

Definition lex_step (st : LexState) (c : N) : option (LexState * list Token) :=
  match st with
  | LStart => start_step c
  | LString acc =>
      if (c =? 34)%N then Some (LStart, [TStr (rev acc)])
      else if (c =? 92)%N then Some (LEscape acc, [])
      else if (c <? 32)%N then None
      else Some (LString (c :: acc), [])
  | LEscape acc =>
      if (c =? 117)%N then Some (LUnicode acc 0 0%N, [])
      else match escape_char c with
           | Some d => Some (LString (d :: acc), [])
           | None => None
           end
  | LUnicode acc count value =>
      match hex_value c with
      | Some h =>
          let value' := (value * 16 + h)%N in
          if (count =? 3)%nat then Some (LString (value' :: acc), [])
          else Some (LUnicode acc (S count) value', [])
      | None => None
      end
  | LNumber ns acc =>
      match num_step ns c with
      | Some ns' => Some (LNumber ns' (c :: acc), [])
      | None =>
          if num_accepting ns then
            match start_step c with
            | Some (st', toks) => Some (st', TNum (rev acc) :: toks)
            | None => None
            end
          else None
      end
  | LLiteral expected v =>
      match expected with
      | [] => None
      | e :: rest =>
          if (c =? e)%N then
            match rest with
            | [] => Some (LStart, [TLit v])
            | _ => Some (LLiteral rest v, [])
            end
          else None
      end
  end.

(** At the end of the text only a complete token may be pending. *)
Definition lex_finish (st : LexState) : option (list Token) :=
  match st with
  | LStart => Some []
  | LNumber ns acc => if num_accepting ns then Some [TNum (rev acc)] else None
  | _ => None
  end.

Fixpoint lex_from (st : LexState) (text : jsstring) : option (list Token) :=
  match text with
  | [] => lex_finish st
  | c :: rest =>
      match lex_step st c with
      | Some (st', toks) =>
          match lex_from st' rest with
          | Some more => Some (toks ++ more)
          | None => None
          end
      | None => None
      end
  end.

Definition lex (text : jsstring) : option (list Token) := lex_from LStart text.

(** *** Syntactic grammar *)

(** An enclosing array or object under construction (contents reversed). *)
Inductive Frame : Type :=
| FArr (elems : list JSON)
| FObj (members : list (jsstring * JSON)) (key : jsstring).

Inductive PState : Type :=
| PValue (stack : list Frame)
| PArrStart (stack : list Frame)
| PObjStart (stack : list Frame)
| PKey (members : list (jsstring * JSON)) (stack : list Frame)
| PColon (members : list (jsstring * JSON)) (key : jsstring) (stack : list Frame)
| PAfter (v : JSON) (stack : list Frame).

(** A token at a place where a value must begin. *)
Definition start_value (t : Token) (stack : list Frame) : option PState :=
  match t with
  | TLit v => Some (PAfter v stack)
  | TNum lexeme => Some (PAfter (JNumber lexeme) stack)
  | TStr s => Some (PAfter (JString s) stack)
  | TLBracket => Some (PArrStart stack)
  | TLBrace => Some (PObjStart stack)
  | _ => None
  end.

Definition parse_step (st : PState) (t : Token) : option PState :=
  match st with
  | PValue stack => start_value t stack
  | PArrStart stack =>
      match t with
      | TRBracket => Some (PAfter (JArray []) stack)
      | _ => start_value t (FArr [] :: stack)
      end
  | PObjStart stack =>
      match t with
      | TRBrace => Some (PAfter (JObject []) stack)
      | TStr k => Some (PColon [] k stack)
      | _ => None
      end
  | PKey members stack =>
      match t with
      | TStr k => Some (PColon members k stack)
      | _ => None
      end
  | PColon members k stack =>
      match t with
      | TColon => Some (PValue (FObj members k :: stack))
      | _ => None
      end
  | PAfter v stack =>
      match stack, t with
      | FArr elems :: stack', TComma => Some (PValue (FArr (v :: elems) :: stack'))
      | FArr elems :: stack', TRBracket =>
          Some (PAfter (JArray (rev (v :: elems))) stack')
      | FObj members k :: stack', TComma => Some (PKey ((k, v) :: members) stack')
      | FObj members k :: stack', TRBrace =>
          Some (PAfter (JObject (rev ((k, v) :: members))) stack')
      | _, _ => None
      end
  end.

Fixpoint parse_from (st : PState) (toks : list Token) : option JSON :=
  match toks with
  | [] => match st with
          | PAfter v [] => Some v
          | _ => None
          end
  | t :: rest =>
      match parse_step st t with
      | Some st' => parse_from st' rest
      | None => None
      end
  end.

(** [JSON.parse(text)] on a string: the value, or [None] for the
    [SyntaxError] it throws. *)
Definition parse_text (text : jsstring) : option JSON :=
  match lex text with
  | Some toks => parse_from (PValue []) toks
  | None => None
  end.

End JSONParse.

(** [JSON.parse(v)]: the argument is first converted to a string, so
    [undefined] is parsed as the text [undefined]. *)
Definition JSON_parse (v : option jsstring) : option JSON :=
  JSONParse.parse_text (JS.ToString "undefined" v).

(** ** The prompt *)

(** The lines of the template literal of [buildPrompt], the lesson text in
    its place. The literal opens with a line break and every line ends with
    one. *)
Definition prompt_lines (query : jsstring) : list jsstring :=
  [ JS.utf16 "É muito importante que a sua mensagem de resposta não contenha nenhuma explicação ou texto, apenas o resultado da forma mais simples possível, seguindo o exemplo a seguir:";
    JS.utf16 "[" ++ JS.dquote ++ JS.utf16 "termo 1" ++ JS.dquote ++ JS.utf16 ", "
      ++ JS.dquote ++ JS.utf16 "termo 2" ++ JS.dquote ++ JS.utf16 ", "
      ++ JS.dquote ++ JS.utf16 "termo 3" ++ JS.dquote ++ JS.utf16 "]";
    [];
    JS.utf16 "------ Agora, vamos às instruções.";
    [];
    JS.utf16 "Estou criando uma API simples que faz pesquisas em imagens no Google e retorna a lista de imagens.";
    JS.utf16 "O objetivo principal dessa ferramenta é pegar uma estrutura de tópicos que estou organizando para montar uma aula e trazer imagens relevantes para ilustrar o tema.";
    JS.utf16 "Dessa forma, gostaria de automatizar essa geração de imagens usando ChatGPT.";
    [];
    JS.utf16 "Portanto, para o texto da aula, traga o termo de pesquisa completo que devo usar para extrair imagens. É importante que você traga uma lista de termos de pesquisa mais detalhados, para que a imagem buscada seja o mais próximo possível da realidade.";
    JS.utf16 "Como vou usar isso em um software, traga uma lista dos termos já estrutura em JavaScript, sem nenhuma informação extra, apenas o código necessário para criar a lista de termos e fazer a pesquisa.";
    JS.utf16 "É importante que tenha apenas 3 termos, selecionados da melhor forma para representar a ideia do texto da aula.";
    [];
    [];
    JS.utf16 "----- Texto da aula:";
    [];
    query;
    [];
    JS.utf16 "Resposta:" ].

Definition buildPrompt (query : option jsstring) : jsstring :=
  JS.LF ++ List.concat (map (fun line => line ++ JS.LF)
                       (prompt_lines (JS.ToString "null" query))).

(** ** Data model *)

(** [interface ImageResult]. *)
Record ImageResult : Type := {
  link : jsstring;
  displayLink : jsstring;
  title : jsstring
}.

(** The body of a completion response, as far as the route reads it:
    [data.choices], each choice with an optional [text]. Bodies are taken to
    have a [choices] array, as the service's answers do. *)
Module OpenAI.
Record Choice : Type := { text : option jsstring }.
Record Data : Type := { choices : list Choice }.
End OpenAI.

(** The body of a search response: [data.items] may be absent; an item has
    the three members the route copies and others it drops. *)
Module Google.
Record Item : Type := {
  link : jsstring;
  displayLink : jsstring;
  title : jsstring;
  others : list (jsstring * JSON)
}.
Record Data : Type := { items : option (list Item) }.
End Google.

(** [process.env]: the three entries the route reads, and the one
    [tiny-invariant] reads. *)
Record Env : Type := {
  OPENAI_API_KEY : option jsstring;
  CUSTOM_SEARCH_KEY : option jsstring;
  CUSTOM_SEARCH_CX : option jsstring;
  NODE_ENV : option jsstring
}.

(** The request [client.post] sends. *)
Record CompletionRequest : Type := {
  post_url : jsstring;
  Authorization : jsstring;
  model : jsstring;
  prompt : jsstring;
  max_tokens : N
}.

(** The request [axios.get] sends. *)
Record SearchRequest : Type := {
  get_url : jsstring;
  key : option jsstring;
  cx : option jsstring;
  q : JSON;
  searchType : jsstring
}.

(** An outbound call, as recorded in the run's log. *)
Inductive Call : Type :=
| Post (req : CompletionRequest)
| Get (req : SearchRequest).

(** What an outbound call comes back with: the response body, or the
    reason of a transport or status failure. *)
Inductive AxiosResult (A : Type) : Type :=
| Resolved (data : A)
| Failed (reason : jsstring).
Arguments Failed {A} reason.

(** The two services. Each is a function of the request: the same request
    gets the same answer. *)
Record Upstream : Type := {
  complete : CompletionRequest -> AxiosResult OpenAI.Data;
  imageSearch : SearchRequest -> AxiosResult Google.Data
}.

(** The values the route can throw. An [AxiosError] carries the request it
    belongs to, which tells a failed completion from a failed search. *)
Inductive Thrown : Type :=
| InvariantError (message : jsstring)
| AxiosError (config : Call) (reason : jsstring)
| TypeError
| SyntaxError.

(** The two shapes of body [action] sends, and the empty object of
    [loader]. *)
Record AggregatedResponse : Type := {
  searchTerms : list JSON;
  results : list ImageResult
}.

Inductive Body : Type :=
| ErrorBody (error : jsstring)
| Aggregated (r : AggregatedResponse)
| EmptyObject.

Record Response : Type := { body : Body; status : N }.

(** [json(data, init)] of [@remix-run/node]; the status defaults to 200. *)
Definition json (data : Body) (init : option N) : Response :=
  {| body := data; status := match init with Some s => s | None => 200%N end |}.

(** The form of the incoming request, once [request.formData()] has read
    it (see [request_formData] below), with each value as the prompt's
    template literal prints it. *)
Record Request : Type := { formData : list (jsstring * jsstring) }.

Definition jsstring_eqb (a b : jsstring) : bool :=
  if list_eq_dec N.eq_dec a b then true else false.

(** [formData.get(name)]: the first value under [name], or [null]. *)
Fixpoint FormData_get (name : jsstring) (fd : list (jsstring * jsstring))
  : option jsstring :=
  match fd with
  | [] => None
  | (k, v) :: rest => if jsstring_eqb k name then Some v else FormData_get name rest
  end.

(** ** The handler monad *)

(** What a run depends on besides the request: the process environment, the
    two services, and how long the i-th search of the fan-out takes to
    answer. Every outbound call is taken to answer. *)
Record World : Type := {
  env : Env;
  upstream : Upstream;
  latency : nat -> N
}.

(** How a computation ends. *)
Inductive Completion (A : Type) : Type :=
| Returned (a : A)
| Threw (e : Thrown).
Arguments Threw {A} e.

(** An asynchronous computation reads the world and appends the outbound
    calls it issues to the log. *)
Definition Async (A : Type) : Type := World -> list Call -> Completion A * list Call.

Definition ret {A} (a : A) : Async A := fun _ log => (Returned a, log).

Definition throw {A} (e : Thrown) : Async A := fun _ log => (Threw e, log).

Definition bind {A B} (m : Async A) (k : A -> Async B) : Async B :=
  fun w log =>
    match m w log with
    | (Returned a, log') => k a w log'
    | (Threw e, log') => (Threw e, log')
    end.

Declare Scope async_scope.
Delimit Scope async_scope with async.
Notation "x <- m ;; k" := (bind m (fun x => k))
  (at level 100, m at next level, right associativity) : async_scope.
Notation "m ;; k" := (bind m (fun _ => k))
  (at level 100, right associativity) : async_scope.
Local Open Scope async_scope.

(** The eventual state of a promise. *)
Inductive Promise (A : Type) : Type :=
| Fulfilled (a : A)
| Rejected (e : Thrown).
Arguments Rejected {A} e.

(** [await p]. *)
Definition await {A} (p : Promise A) : Async A :=
  match p with
  | Fulfilled a => ret a
  | Rejected e => throw e
  end.

(** [p.then(f)] for an [f] that may throw: the rest of an async function
    after an [await]. *)
Definition Promise_then {A B} (p : Promise A) (f : A -> Completion B) : Promise B :=
  match p with
  | Fulfilled a => match f a with
                   | Returned b => Fulfilled b
                   | Threw e => Rejected e
                   end
  | Rejected e => Rejected e
  end.

Definition process_env : Async Env := fun w log => (Returned (env w), log).

(** [isProduction] of [tiny-invariant]:
    [process.env.NODE_ENV === 'production']. *)
Definition isProduction (e : Env) : bool :=
  match NODE_ENV e with
  | Some v => jsstring_eqb v (JS.utf16 "production")
  | None => false
  end.

(** The message of the error [tiny-invariant] throws: the bare prefix in
    production (and for an empty message), otherwise the prefix, a colon and
    the message given. *)
Definition invariantMessage (production : bool) (message : jsstring) : jsstring :=
  if production then JS.utf16 "Invariant failed"
  else match message with
       | [] => JS.utf16 "Invariant failed"
       | _ :: _ => JS.utf16 "Invariant failed: " ++ message
       end.

(** [invariant(condition, message)] of [tiny-invariant]. *)
Definition invariant (condition : option jsstring) (message : string) : Async unit :=
  fun w log =>
    if JS.truthy condition then (Returned tt, log)
    else (Threw (InvariantError
                   (invariantMessage (isProduction (env w)) (JS.utf16 message))),
          log).

Definition of_result {A} (c : Call) (r : AxiosResult A) : Promise A :=
  match r with
  | Resolved data => Fulfilled data
  | Failed reason => Rejected (AxiosError c reason)
  end.

(** [client.post(url, body)]: the call goes out, the promise settles with
    the service's answer. *)
Definition axios_post (req : CompletionRequest) : Async (Promise OpenAI.Data) :=
  fun w log => (Returned (of_result (Post req) (complete (upstream w) req)),
                log ++ [Post req]).

(** [axios.get(url, { params })]. *)
Definition axios_get (req : SearchRequest) : Async (Promise Google.Data) :=
  fun w log => (Returned (of_result (Get req) (imageSearch (upstream w) req)),
                log ++ [Get req]).

(** [array.map(f)] for an [f] with effects: [f] runs on each element in
    index order. *)
Fixpoint Array_map {A B} (f : A -> Async B) (array : list A) : Async (list B) :=
  match array with
  | [] => ret []
  | x :: rest =>
      y <- f x ;;
      ys <- Array_map f rest ;;
      ret (y :: ys)
  end.

(** The rejection that reaches [Promise.all] first: among the rejected
    promises from index [i] on, the one of least latency, with its latency.
    Two answers of the same latency are taken in index order; in the code
    their order is up to the event loop. *)
Fixpoint first_rejection {A} (lat : nat -> N) (i : nat) (ps : list (Promise A))
  : option (N * Thrown) :=
  match ps with
  | [] => None
  | p :: rest =>
      let later := first_rejection lat (S i) rest in
      match p with
      | Fulfilled _ => later
      | Rejected e =>
          match later with
          | Some (t, e') => if (t <? lat i)%N then Some (t, e') else Some (lat i, e)
          | None => Some (lat i, e)
          end
      end
  end.

(** The values of the fulfilled promises, in index order. *)
Fixpoint fulfilled_values {A} (ps : list (Promise A)) : list A :=
  match ps with
  | [] => []
  | Fulfilled a :: rest => a :: fulfilled_values rest
  | Rejected _ :: rest => fulfilled_values rest
  end.

(** [await Promise.all(ps)]: rejected with the first rejection to arrive,
    else fulfilled with all the values in index order. *)
Definition Promise_all {A} (ps : list (Promise A)) : Async (list A) :=
  fun w log =>
    match first_rejection (latency w) 0 ps with
    | Some (_, e) => (Threw e, log)
    | None => (Returned (fulfilled_values ps), log)
    end.

(** ** The route *)

Definition completions_url : jsstring := JS.utf16 "https://api.openai.com/v1/completions".
Definition customsearch_url : jsstring := JS.utf16 "https://www.googleapis.com/customsearch/v1".
Definition invalid_response : jsstring := JS.utf16 "Invalid response from GPT".

(** The callback of [searchResponse.data.items.map]. *)
Definition toImageResult (item : Google.Item) : ImageResult :=
  {| link := Google.link item;
     displayLink := Google.displayLink item;
     title := Google.title item |}.

(** [searchResponse.data.items.map(...)]: a [TypeError] when [items] is
    absent. *)
Definition mapItems (data : Google.Data) : Completion (list ImageResult) :=
  match Google.items data with
  | Some items => Returned (map toImageResult items)
  | None => Threw TypeError
  end.

(** The [params] of the search request for one term. *)
Definition searchRequest (e : Env) (term : JSON) : SearchRequest :=
  {| get_url := customsearch_url;
     key := CUSTOM_SEARCH_KEY e;
     cx := CUSTOM_SEARCH_CX e;
     q := term;
     searchType := JS.utf16 "image" |}.

(** The async callback of [gptResultAsArray.map]: the search goes out at
    once; the promise it returns settles when the answer arrives. *)
Definition searchTerm (term : JSON) : Async (Promise (list ImageResult)) :=
  e <- process_env ;;
  searchResponse <- axios_get (searchRequest e term) ;;
  ret (Promise_then searchResponse mapItems).

(** The completion request: the client's [Authorization] header and the
    posted body. *)
Definition completionRequest (e : Env) (query : option jsstring) : CompletionRequest :=
  {| post_url := completions_url;
     Authorization := JS.utf16 "Bearer " ++ JS.ToString "undefined" (OPENAI_API_KEY e);
     model := JS.utf16 "text-davinci-003";
     prompt := buildPrompt query;
     max_tokens := 256 |}.

(** The second [JSON.parse(gptResult)], outside the [try]. *)
Definition JSON_parse_throwing (v : option jsstring) : Async JSON :=
  match JSON_parse v with
  | Some value => ret value
  | None => throw SyntaxError
  end.

(** [gptResponse.data.choices[0]?.text]. *)
Definition firstChoiceText (data : OpenAI.Data) : option jsstring :=
  match nth_error (OpenAI.choices data) 0 with
  | Some choice => OpenAI.text choice
  | None => None
  end.

(** [export let action], from its second line on: [request] holds the
    form its first line has read. [action_from_request] below starts from the
    first line. *)
Definition action (request : Request) : Async Response :=
  let query := FormData_get (JS.utf16 "query") (formData request) in
  e <- process_env ;;
  invariant (OPENAI_API_KEY e) "OPENAI_API_KEY must be set" ;;
  invariant (CUSTOM_SEARCH_KEY e) "CUSTOM_SEARCH_KEY must be set" ;;
  invariant (CUSTOM_SEARCH_CX e) "CUSTOM_SEARCH_CX must be set" ;;
  pending <- axios_post (completionRequest e query) ;;
  gptResponse <- await pending ;;
  let gptResult := firstChoiceText gptResponse in
  match JSON_parse gptResult with
  | None => ret (json (ErrorBody invalid_response) (Some 400%N))
  | Some _ =>
      gptResultAsArray <- JSON_parse_throwing gptResult ;;
      match gptResultAsArray with
      | JArray terms =>
          promises <- Array_map searchTerm terms ;;
          perTerm <- Promise_all promises ;;
          ret (json (Aggregated {| searchTerms := terms;
                                   results := List.concat perTerm |}) None)
      | _ => ret (json (ErrorBody invalid_response) (Some 400%N))
      end
  end.

(** [export let loader]. *)
Definition loader : Async Response := ret (json EmptyObject None).

(** *** The request as it comes in *)

(** The value of a form field: a string, or a file. *)
Inductive FormDataEntryValue : Type :=
| FieldString (s : jsstring)
| FieldFile (name : jsstring).

(** The body of the incoming request: a form, or anything else. *)
Inductive RequestBody : Type :=
| FormBody (entries : list (jsstring * FormDataEntryValue))
| OtherBody.

(** What a field's value prints as in the template literal of the prompt,
    the only place the route uses it. *)
Definition entryText (v : FormDataEntryValue) : jsstring :=
  match v with
  | FieldString s => s
  | FieldFile _ => JS.utf16 "[object File]"
  end.

(** The form as the rest of [action] sees it. *)
Definition readForm (entries : list (jsstring * FormDataEntryValue)) : Request :=
  {| formData := map (fun entry => (fst entry, entryText (snd entry))) entries |}.

(** [await request.formData()], the first line of [action]: rejected with
    a [TypeError] when the body is not a form. *)
Definition request_formData (requestBody : RequestBody) : Async Request :=
  match requestBody with
  | FormBody entries => ret (readForm entries)
  | OtherBody => throw TypeError
  end.

(** [action] from its first line: the form is read, then the rest runs as
    [action] above. *)
Definition action_from_request (requestBody : RequestBody) : Async Response :=
  request <- request_formData requestBody ;;
  action request.

(** A run starts with an empty log. *)
Definition run {A} (m : Async A) (w : World) : Completion A * list Call := m w [].

(** ** The specification's vocabulary, in terms of the route's values *)

(** All three credentials are set (and not empty). *)
Definition configured (e : Env) : bool :=
  JS.truthy (OPENAI_API_KEY e) && JS.truthy (CUSTOM_SEARCH_KEY e)
  && JS.truthy (CUSTOM_SEARCH_CX e).

(** [ConfigurationError]: a failed [invariant]. *)
Definition ConfigurationError (e : Thrown) : Prop :=
  exists message, e = InvariantError message.

(** [UpstreamGenerationError]: the completion call failed. *)
Definition UpstreamGenerationError (e : Thrown) : Prop :=
  exists req reason, e = AxiosError (Post req) reason.

(** [UpstreamSearchError]: a search call failed. *)
Definition UpstreamSearchError (e : Thrown) : Prop :=
  exists req reason, e = AxiosError (Get req) reason.

(** [InvalidGenerationFormat]: the 400 response of the route. *)
Definition InvalidGenerationFormat : Response :=
  json (ErrorBody invalid_response) (Some 400%N).

(** The form a lesson text arrives in. *)
Definition lessonRequest (T : jsstring) : Request :=
  {| formData := [(JS.utf16 "query", T)] |}.

(** The search calls of a log, in the order they went out. *)
Fixpoint search_calls (log : list Call) : list SearchRequest :=
  match log with
  | [] => []
  | Get req :: rest => req :: search_calls rest
  | Post _ :: rest => search_calls rest
  end.

Definition isArray (v : JSON) : bool :=
  match v with
  | JArray _ => true
  | _ => false
  end.

(** The promise the callback returns for one term: the state the search
    and the mapping of its items leave it in. *)
Definition searchPromise (w : World) (term : JSON) : Promise (list ImageResult) :=
  Promise_then
    (of_result (Get (searchRequest (env w) term))
               (imageSearch (upstream w) (searchRequest (env w) term)))
    mapItems.

(** The query [action] reads from a request. *)
Definition queryOf (request : Request) : option jsstring :=
  FormData_get (JS.utf16 "query") (formData request).

(** ** The text of an array of phrases *)

(** A code unit that stands for itself inside a JSON string: not a control
    character, not the quotation mark, not the backslash. *)
Definition plain (c : N) : Prop := (32 <= c)%N /\ c <> 34%N /\ c <> 92%N.

(** The same, as a test. *)
Definition plainb (c : N) : bool :=
  (32 <=? c)%N && negb (c =? 34)%N && negb (c =? 92)%N.

(** What follows the first phrase of an array text: the other phrases,
    each after a comma, and the closing bracket. *)
Fixpoint arrayTail (phrases : list jsstring) : jsstring :=
  match phrases with
  | [] => [93%N]
  | p :: rest => 44%N :: 34%N :: p ++ 34%N :: arrayTail rest
  end.

(** The compact JSON text of an array of strings. *)
Definition arrayText (phrases : list jsstring) : jsstring :=
  match phrases with
  | [] => [91%N; 93%N]
  | p :: rest => 91%N :: 34%N :: p ++ 34%N :: arrayTail rest
  end.

(** The tokens of the tail of an array text. *)
Fixpoint tailTokens (phrases : list jsstring) : list JSONParse.Token :=
  match phrases with
  | [] => [JSONParse.TRBracket]
  | p :: rest => JSONParse.TComma :: JSONParse.TStr p :: tailTokens rest
  end.

(** Every search answered by the service carries [items]. *)
Definition answers_carry_items (w : World) (terms : list JSON) : Prop :=
  forall t d, In t terms ->
              imageSearch (upstream w) (searchRequest (env w) t) = Resolved d ->
              Google.items d <> None.

(** ** Stubbed worlds for concrete runs *)

Module Stub.

Definition quoted (s : jsstring) : jsstring := JS.dquote ++ s ++ JS.dquote.

Definition credentials : Env :=
  {| OPENAI_API_KEY := Some (JS.utf16 "sk-test");
     CUSTOM_SEARCH_KEY := Some (JS.utf16 "search-key");
     CUSTOM_SEARCH_CX := Some (JS.utf16 "context-id");
     NODE_ENV := None |}.

Definition no_credentials : Env :=
  {| OPENAI_API_KEY := None; CUSTOM_SEARCH_KEY := None; CUSTOM_SEARCH_CX := None;
     NODE_ENV := None |}.

(** A completion service that answers every prompt with one choice. *)
Definition completes (raw : option jsstring) (_ : CompletionRequest)
  : AxiosResult OpenAI.Data :=
  Resolved {| OpenAI.choices := [ {| OpenAI.text := raw |} ] |}.

(** A completion service that answers with no choice at all. *)
Definition no_choice (_ : CompletionRequest) : AxiosResult OpenAI.Data :=
  Resolved {| OpenAI.choices := [] |}.

Definition image (host name : jsstring) : Google.Item :=
  {| Google.link := JS.utf16 "https://" ++ host ++ JS.utf16 "/" ++ name;
     Google.displayLink := host;
     Google.title := name;
     Google.others := [(JS.utf16 "mime", JString (JS.utf16 "image/png"))] |}.

(** The fixed result list of a phrase: two images named after it. *)
Definition images (p : jsstring) : list Google.Item :=
  [ image (JS.utf16 "a.example") p; image (JS.utf16 "b.example") p ].

Definition phraseOf (term : JSON) : jsstring :=
  match term with
  | JString p => p
  | _ => []
  end.

(** A search service with a fixed answer per phrase. *)
Definition finds (req : SearchRequest) : AxiosResult Google.Data :=
  Resolved {| Google.items := Some (images (phraseOf (q req))) |}.

(** The same, except that the search for [bad] fails. *)
Definition fails_on (bad : jsstring) (req : SearchRequest) : AxiosResult Google.Data :=
  if jsstring_eqb (phraseOf (q req)) bad
  then Failed (JS.utf16 "Request failed with status code 503")
  else finds req.

(** A search service that finds nothing: the answer has no [items]. *)
Definition finds_nothing (_ : SearchRequest) : AxiosResult Google.Data :=
  Resolved {| Google.items := None |}.

(** A search service whose answers carry an empty [items]. *)
Definition finds_empty (_ : SearchRequest) : AxiosResult Google.Data :=
  Resolved {| Google.items := Some [] |}.

Definition world (e : Env) (c : CompletionRequest -> AxiosResult OpenAI.Data)
           (s : SearchRequest -> AxiosResult Google.Data) (lat : nat -> N) : World :=
  {| env := e; upstream := {| complete := c; imageSearch := s |}; latency := lat |}.

(** Latencies of 300, 100 and 200 for the first three searches. *)
Definition delays (i : nat) : N :=
  match i with
  | O => 300%N
  | S O => 100%N
  | _ => 200%N
  end.

Definition lesson : jsstring := JS.utf16 "Vulcões e placas tectónicas".

Definition volcano : jsstring := JS.utf16 "volcano eruption".
Definition plates : jsstring := JS.utf16 "tectonic plates map".
Definition magma : jsstring := JS.utf16 "magma chamber diagram".

(** The text of a JSON array of the three phrases. *)
Definition threePhrases : jsstring :=
  JS.utf16 "[" ++ quoted volcano ++ JS.utf16 ", " ++ quoted plates
    ++ JS.utf16 ", " ++ quoted magma ++ JS.utf16 "]".

End Stub.

(** ** The page *)

(** [navigation.state] of [useNavigation]. *)
Inductive NavigationState : Type := idle | loading | submitting.

(** The part of a change event the page reads: [e.target.value]. *)
Record ChangeEvent : Type := { target_value : jsstring }.

(** The props of an element: a string-valued prop, [key={index}], and the
    [onChange] handler, given by the value it sets the state [query] to. *)
Inductive Attr : Type :=
| StringAttr (name : string) (value : jsstring)
| KeyAttr (index : nat)
| OnChangeAttr (handler : ChangeEvent -> jsstring).

(** What the component returns: elements, and as children also text, a
    number, a value of the response, [undefined] (the value of a failed
    [&&]) and an array of nodes (the value of a [map]). *)
#[warnings="-register-all"] Inductive Node : Type :=
| Text (s : jsstring)
| NumberChild (n : nat)
| ValueChild (v : JSON)
| Undefined
| ArrayChild (items : list Node)
| Element (tag : string) (attrs : list Attr) (children : list Node).

(** [array.map((x, index) => ...)]. *)
Fixpoint mapi_from {A B} (f : A -> nat -> B) (i : nat) (array : list A) : list B :=
  match array with
  | [] => []
  | x :: rest => f x i :: mapi_from f (S i) rest
  end.

Definition Array_mapi {A B} (f : A -> nat -> B) (array : list A) : list B :=
  mapi_from f 0 array.

(** [actionData?.searchTerms]: absent without action data and on a body
    that has no such member. *)
Definition actionData_searchTerms (actionData : option Body) : option (list JSON) :=
  match actionData with
  | Some (Aggregated r) => Some (searchTerms r)
  | _ => None
  end.

(** [actionData?.results]. *)
Definition actionData_results (actionData : option Body) : option (list ImageResult) :=
  match actionData with
  | Some (Aggregated r) => Some (results r)
  | _ => None
  end.

(** The initial state of [useState]. *)
Definition initialQuery : jsstring := [].

(** The callback of [searchTerms.map]: one list item per term. *)
Definition termItem (term : JSON) (index : nat) : Node :=
  Element "li" [KeyAttr index] [ValueChild term].

(** The image of a result. *)
Definition imageOf (result : ImageResult) : Node :=
  Element "img"
    [ StringAttr "src" (link result);
      StringAttr "alt" (title result);
      StringAttr "className" (JS.utf16 "max-w-xs") ]
    [].

(** The link around the image of a result. *)
Definition anchorOf (result : ImageResult) : Node :=
  Element "a"
    [ StringAttr "href" (link result);
      StringAttr "target" (JS.utf16 "_blank");
      StringAttr "rel" (JS.utf16 "noopener noreferrer") ]
    [imageOf result].

(** The callback of [results.map]: one linked image per result. *)
Definition resultItem (result : ImageResult) (index : nat) : Node :=
  Element "div" [KeyAttr index; StringAttr "className" (JS.utf16 "mt-2")]
    [anchorOf result].

(** [export default function Search()], as a function of the state
    [query] and of what the two hooks return. An array is truthy even when
    empty, so a section is rendered whenever its member is present. *)
Definition Search (query : jsstring) (actionData : option Body)
           (navigation : NavigationState) : Node :=
  Element "div" [StringAttr "className" (JS.utf16 "p-4")]
    [ Element "Form" [StringAttr "method" (JS.utf16 "post")]
        [ Element "div" [StringAttr "className" []]
            [ Element "textarea"
                [ StringAttr "className" (JS.utf16 "h-32 w-full border p-2");
                  StringAttr "name" (JS.utf16 "query");
                  StringAttr "value" query;
                  OnChangeAttr (fun e => target_value e);
                  StringAttr "placeholder" (JS.utf16 "Digite o texto da aula aqui") ]
                [] ];
          Element "div" [StringAttr "className" []]
            [ Element "button"
                [ StringAttr "className" (JS.utf16 "w-full border p-2");
                  StringAttr "type" (JS.utf16 "submit") ]
                [ Text (match navigation with
                        | idle => JS.utf16 "Buscar"
                        | _ => JS.utf16 "Buscando..."
                        end) ] ] ];
      match actionData_searchTerms actionData with
      | Some terms =>
          Element "div" [StringAttr "className" (JS.utf16 "mt-2")]
            [ Element "h2" [StringAttr "className" (JS.utf16 "text-xl")]
                [Text (JS.utf16 "Termos de pesquisa")];
              Element "ul" [] [ArrayChild (Array_mapi termItem terms)] ]
      | None => Undefined
      end;
      match actionData_results actionData with
      | Some results =>
          Element "div" [StringAttr "className" (JS.utf16 "flex flex-wrap")]
            [ Text (JS.utf16 "Resultados: ");
              NumberChild (List.length results);
              ArrayChild (Array_mapi resultItem results) ]
      | None => Undefined
      end ].

(** *** Reading a rendered page *)

(** The elements of a tag, in document order. *)
Fixpoint select (tag : string) (n : Node) : list Node :=
  match n with
  | Element t attrs children =>
      (if String.eqb t tag then [n] else []) ++ flat_map (select tag) children
  | ArrayChild items => flat_map (select tag) items
  | _ => []
  end.

(** The numbers shown, in document order. *)
Fixpoint numbers (n : Node) : list nat :=
  match n with
  | NumberChild k => [k]
  | Element _ _ children => flat_map numbers children
  | ArrayChild items => flat_map numbers items
  | _ => []
  end.

(** The values of the response shown, in document order. *)
Fixpoint values (n : Node) : list JSON :=
  match n with
  | ValueChild v => [v]
  | Element _ _ children => flat_map values children
  | ArrayChild items => flat_map values items
  | _ => []
  end.

Fixpoint lookupAttr (name : string) (attrs : list Attr) : option jsstring :=
  match attrs with
  | [] => None
  | StringAttr n v :: rest => if String.eqb n name then Some v else lookupAttr name rest
  | _ :: rest => lookupAttr name rest
  end.

(** A string prop of an element. *)
Definition attribute (name : string) (n : Node) : option jsstring :=
  match n with
  | Element _ attrs _ => lookupAttr name attrs
  | _ => None
  end.

Fixpoint lookupKey (attrs : list Attr) : option nat :=
  match attrs with
  | [] => None
  | KeyAttr i :: _ => Some i
  | _ :: rest => lookupKey rest
  end.

(** The [key] of an element. *)
Definition keyOf (n : Node) : option nat :=
  match n with
  | Element _ attrs _ => lookupKey attrs
  | _ => None
  end.

Fixpoint lookupOnChange (attrs : list Attr) : option (ChangeEvent -> jsstring) :=
  match attrs with
  | [] => None
  | OnChangeAttr h :: _ => Some h
  | _ :: rest => lookupOnChange rest
  end.

(** A change event on the page's text area: the state [query] it leaves. *)
Definition change (page : Node) (e : ChangeEvent) : option jsstring :=
  match select "textarea" page with
  | Element _ attrs _ :: _ =>
      match lookupOnChange attrs with
      | Some handler => Some (handler e)
      | None => None
      end
  | _ => None
  end.

(** ** The parts of the prompt around the lesson text *)

Definition promptBefore : list jsstring := firstn 16 (prompt_lines []).
Definition promptAfter : list jsstring := skipn 17 (prompt_lines []).

Definition promptHead : jsstring :=
  JS.LF ++ List.concat (map (fun line => line ++ JS.LF) promptBefore).

Definition promptTail : jsstring :=
  JS.LF ++ List.concat (map (fun line => line ++ JS.LF) promptAfter).

(** The number of items the searches of a list of terms are answered
    with. *)
Definition total (found : JSON -> list Google.Item) (terms : list JSON) : nat :=
  list_sum (map (fun t => List.length (found t)) terms).


(** ** How a run unfolds *)

Section Unfolding.

Variable w : World.

(** The fan-out issues one search per term, in order, and returns the
    promises without waiting for any. *)
Lemma Array_map_searchTerm (terms : list JSON) (log : list Call) :
  Array_map searchTerm terms w log
  = (Returned (map (searchPromise w) terms),
     log ++ map (fun t => Get (searchRequest (env w) t)) terms).
Proof.
  revert log.
  induction terms as [| t terms IH]; intro log; cbn.
  - unfold ret. now rewrite app_nil_r.
  - unfold bind at 1. unfold searchTerm at 1.
    unfold bind, process_env, axios_get, ret. cbn.
    rewrite IH. unfold searchPromise at 2.
    now rewrite <- app_assoc.
Qed.

(** With a credential missing the first failing [invariant] throws and
    nothing has gone out. *)
Lemma action_unconfigured (request : Request) :
  configured (env w) = false ->
  exists message, run (action request) w = (Threw (InvariantError message), []).
Proof.
  unfold configured, run, action, bind, process_env, invariant.
  intro H.
  destruct (JS.truthy (OPENAI_API_KEY (env w))); [| eexists; reflexivity].
  destruct (JS.truthy (CUSTOM_SEARCH_KEY (env w))); [| eexists; reflexivity].
  destruct (JS.truthy (CUSTOM_SEARCH_CX (env w))); [discriminate | eexists; reflexivity].
Qed.

(** The whole of a configured run, by cases on what the two services
    answer. *)
Lemma action_configured (request : Request) :
  configured (env w) = true ->
  run (action request) w =
    let req := completionRequest (env w) (queryOf request) in
    match complete (upstream w) req with
    | Failed reason => (Threw (AxiosError (Post req) reason), [Post req])
    | Resolved data =>
        match JSON_parse (firstChoiceText data) with
        | Some (JArray terms) =>
            let promises := map (searchPromise w) terms in
            let log := Post req :: map (fun t => Get (searchRequest (env w) t)) terms in
            match first_rejection (latency w) 0 promises with
            | Some (_, e) => (Threw e, log)
            | None =>
                (Returned (json (Aggregated
                                   {| searchTerms := terms;
                                      results := List.concat (fulfilled_values promises) |})
                                None), log)
            end
        | _ => (Returned InvalidGenerationFormat, [Post req])
        end
    end.
Proof.
  unfold configured. intro H.
  apply andb_prop in H as [H H3]. apply andb_prop in H as [H1 H2].
  unfold run, action, bind at 1 2 3 4 5, process_env, invariant.
  rewrite H1, H2, H3. unfold ret at 1 2 3, axios_post. cbn zeta.
  fold (queryOf request).
  set (req := completionRequest (env w) (queryOf request)).
  cbn [app].
  destruct (complete (upstream w) req) as [data | reason]; cbn [of_result await].
  - unfold bind at 1, ret at 1.
    destruct (JSON_parse (firstChoiceText data)) as [v |] eqn:Hparse.
    + unfold JSON_parse_throwing. rewrite Hparse.
      unfold bind at 1, ret at 1.
      destruct v; try reflexivity.
      unfold bind at 1. rewrite Array_map_searchTerm.
      unfold bind, Promise_all. cbn [app].
      destruct (first_rejection (latency w) 0 (map (searchPromise w) elements))
        as [[t e] |]; reflexivity.
    + reflexivity.
  - reflexivity.
Qed.

End Unfolding.

(** ** Joining promises *)

Section Joining.

Context {A : Type}.

Lemma fulfilled_values_map (vs : list A) :
  fulfilled_values (map (@Fulfilled A) vs) = vs.
Proof. induction vs as [| v vs IH]; cbn; congruence. Qed.

(** No rejection is found exactly when every promise is fulfilled. *)
Lemma first_rejection_None (lat : nat -> N) (ps : list (Promise A)) :
  forall i, first_rejection lat i ps = None <-> ps = map (@Fulfilled A) (fulfilled_values ps).
Proof.
  induction ps as [| p ps IH]; intro i; cbn.
  - tauto.
  - destruct p as [a | e]; cbn.
    + rewrite (IH (S i)). split; intro H; [now f_equal | now injection H].
    + split.
      * destruct (first_rejection lat (S i) ps) as [[t e'] |];
          [destruct (t <? lat i)%N |]; discriminate.
      * intro H. exfalso. clear IH. revert H.
        generalize (fulfilled_values ps). intros [| v vs]; discriminate.
Qed.

(** Whether the join is rejected does not depend on the latencies. *)
Lemma first_rejection_None_any (lat1 lat2 : nat -> N) (ps : list (Promise A)) i j :
  first_rejection lat1 i ps = None -> first_rejection lat2 j ps = None.
Proof. rewrite !first_rejection_None. trivial. Qed.

(** The rejection found is that of one of the promises. *)
Lemma first_rejection_In (lat : nat -> N) (ps : list (Promise A)) :
  forall i t e, first_rejection lat i ps = Some (t, e) -> In (Rejected e) ps.
Proof.
  induction ps as [| p ps IH]; intros i t e; cbn.
  - discriminate.
  - destruct p as [a | e0].
    + intro H. right. eauto.
    + destruct (first_rejection lat (S i) ps) as [[t' e'] |] eqn:Hlater.
      * destruct (t' <? lat i)%N; intro H; injection H as <- <-.
        -- right. eauto.
        -- now left.
      * intro H. injection H as <- <-. now left.
Qed.

(** It is the earliest: no rejected promise has a smaller latency. *)
Lemma first_rejection_earliest (lat : nat -> N) (ps : list (Promise A)) :
  forall i t e, first_rejection lat i ps = Some (t, e) ->
  forall j e', nth_error ps j = Some (Rejected e') -> (t <= lat (i + j)%nat)%N.
Proof.
  induction ps as [| p ps IH]; intros i t e; cbn.
  - discriminate.
  - intros H j e' Hj.
    destruct j as [| j]; cbn in Hj.
    + injection Hj as ->. rewrite Nat.add_0_r.
      destruct (first_rejection lat (S i) ps) as [[t' e''] |].
      * destruct (t' <? lat i)%N eqn:Hlt; injection H as <- <-.
        -- apply N.ltb_lt in Hlt. lia.
        -- lia.
      * injection H as <- <-. lia.
    + replace (i + S j)%nat with (S i + j)%nat by lia.
      destruct p as [a | e0].
      * eapply IH; eauto.
      * destruct (first_rejection lat (S i) ps) as [[t' e''] |] eqn:Hlater.
        -- destruct (t' <? lat i)%N eqn:Hlt; injection H as <- <-.
           ++ eapply IH; eauto.
           ++ apply N.ltb_ge in Hlt.
              pose proof (IH (S i) t' e'' Hlater j e' Hj). lia.
        -- apply first_rejection_None in Hlater.
           rewrite Hlater in Hj.
           rewrite nth_error_map in Hj.
           destruct (nth_error (fulfilled_values ps) j); discriminate.
Qed.

(** One rejected promise is enough for the join to be rejected. *)
Lemma first_rejection_Some (lat : nat -> N) (ps : list (Promise A)) i e :
  In (Rejected e) ps -> exists t e', first_rejection lat i ps = Some (t, e').
Proof.
  intro Hin.
  destruct (first_rejection lat i ps) as [[t e'] |] eqn:H; [eauto |].
  apply first_rejection_None in H. rewrite H in Hin.
  apply in_map_iff in Hin as (v & Hv & _). discriminate.
Qed.

End Joining.

(** ** One search *)

Section OneSearch.

Variable w : World.
Variable term : JSON.

Lemma searchPromise_items (items : list Google.Item) :
  imageSearch (upstream w) (searchRequest (env w) term)
  = Resolved {| Google.items := Some items |} ->
  searchPromise w term = Fulfilled (map toImageResult items).
Proof. unfold searchPromise. now intros ->. Qed.

Lemma searchPromise_no_items :
  imageSearch (upstream w) (searchRequest (env w) term)
  = Resolved {| Google.items := None |} ->
  searchPromise w term = Rejected TypeError.
Proof. unfold searchPromise. now intros ->. Qed.

Lemma searchPromise_failed (reason : jsstring) :
  imageSearch (upstream w) (searchRequest (env w) term) = Failed reason ->
  searchPromise w term = Rejected (AxiosError (Get (searchRequest (env w) term)) reason).
Proof. unfold searchPromise. now intros ->. Qed.

(** A rejected search promise is a failed call or an answer without
    [items]. *)
Lemma searchPromise_rejected (e : Thrown) :
  searchPromise w term = Rejected e ->
  (exists reason,
      imageSearch (upstream w) (searchRequest (env w) term) = Failed reason
      /\ e = AxiosError (Get (searchRequest (env w) term)) reason)
  \/ (imageSearch (upstream w) (searchRequest (env w) term)
      = Resolved {| Google.items := None |} /\ e = TypeError).
Proof.
  unfold searchPromise.
  destruct (imageSearch (upstream w) (searchRequest (env w) term))
    as [[[items |]] | reason]; cbn.
  - discriminate.
  - intro H. injection H as <-. now right.
  - intro H. injection H as <-. left. eauto.
Qed.

End OneSearch.

(** ** Parsing the text of an array of phrases *)

Section ArrayTexts.

Import JSONParse.

(** Inside a string, plain code units are taken as they are up to the
    closing quotation mark. *)
Lemma lex_string_body (s acc rest : jsstring) :
  Forall plain s ->
  lex_from (LString acc) (s ++ 34%N :: rest)
  = option_map (cons (TStr (rev acc ++ s))) (lex_from LStart rest).
Proof.
  intro Hs. revert acc.
  induction Hs as [| c s (Hge & Hq & Hb) _ IH]; intro acc.
  - cbn. rewrite app_nil_r. now destruct (lex_from LStart rest).
  - cbn [app lex_from lex_step].
    apply N.eqb_neq in Hq, Hb. rewrite Hq, Hb.
    apply N.ltb_ge in Hge. rewrite Hge.
    rewrite IH. cbn [rev]. rewrite <- app_assoc. cbn [app].
    now destruct (lex_from LStart rest).
Qed.

Lemma lex_arrayTail (phrases : list jsstring) :
  Forall (Forall plain) phrases ->
  lex_from LStart (arrayTail phrases) = Some (tailTokens phrases).
Proof.
  induction 1 as [| p rest Hp _ IH]; [reflexivity |].
  cbn [arrayTail lex_from]. cbn -[lex_from].
  rewrite (lex_string_body [] (arrayTail rest) Hp), IH. reflexivity.
Qed.

Lemma parse_tailTokens (phrases : list jsstring) :
  forall (v : JSON) (elems : list JSON),
    parse_from (PAfter v [FArr elems]) (tailTokens phrases)
    = Some (JArray (rev elems ++ v :: map JString phrases)).
Proof.
  induction phrases as [| p rest IH]; intros v elems.
  - reflexivity.
  - cbn [tailTokens parse_from parse_step start_value].
    rewrite IH. cbn [rev map]. now rewrite <- app_assoc.
Qed.

(** Every array of phrases made of plain code units is read back from its
    text. *)
Lemma JSON_parse_arrayText (phrases : list jsstring) :
  Forall (Forall plain) phrases ->
  JSON_parse (Some (arrayText phrases)) = Some (JArray (map JString phrases)).
Proof.
  intro H. unfold JSON_parse, parse_text, lex. cbn [JS.ToString].
  destruct H as [| p rest Hp Hrest]; [reflexivity |].
  cbn [arrayText lex_from]. cbn -[lex_from parse_from].
  rewrite (lex_string_body [] (arrayTail rest) Hp), (lex_arrayTail Hrest).
  cbn [option_map rev app parse_from parse_step start_value].
  now rewrite parse_tailTokens.
Qed.

End ArrayTexts.

(** ** The pipeline on success *)

(** When every search is answered with its items, the run returns the
    terms and the items of each term in term order. *)
Lemma fanout_success (request : Request) (w : World) (data : OpenAI.Data)
      (terms : list JSON) (found : JSON -> list Google.Item) :
  configured (env w) = true ->
  complete (upstream w) (completionRequest (env w) (queryOf request)) = Resolved data ->
  JSON_parse (firstChoiceText data) = Some (JArray terms) ->
  (forall t, In t terms ->
             imageSearch (upstream w) (searchRequest (env w) t)
             = Resolved {| Google.items := Some (found t) |}) ->
  run (action request) w
  = (Returned (json (Aggregated
                       {| searchTerms := terms;
                          results := List.concat
                                       (map (fun t => map toImageResult (found t)) terms) |})
                    None),
     Post (completionRequest (env w) (queryOf request))
          :: map (fun t => Get (searchRequest (env w) t)) terms).
Proof.
  intros Hconf Hcomplete Hparse Hfound.
  rewrite action_configured by assumption. cbn zeta.
  rewrite Hcomplete, Hparse.
  assert (Hps : map (searchPromise w) terms
                = map (@Fulfilled _) (map (fun t => map toImageResult (found t)) terms)).
  { rewrite map_map. apply map_ext_in. intros t Ht.
    apply searchPromise_items. auto. }
  rewrite Hps.
  destruct (first_rejection (latency w) 0 _) as [[t e] |] eqn:Hrej.
  - apply first_rejection_In in Hrej.
    apply in_map_iff in Hrej as (v & Hv & _). discriminate.
  - now rewrite fulfilled_values_map.
Qed.

Lemma queryOf_lessonRequest (T : jsstring) : queryOf (lessonRequest T) = Some T.
Proof. reflexivity. Qed.

(** C1. For every lesson text: when the completion capability returns the
    text of a JSON array of three non-empty strings and the search
    capability answers each phrase with a fixed list of items, the run
    succeeds with status 200; [searchTerms] is the three phrases in order and
    [results] is the concatenation, in phrase order, of each phrase's items
    in the service's order, each item mapped to the record of its link, its
    displayLink and its title. *)
Theorem C1_three_phrases_aggregated
        (T : jsstring) (w : World) (data : OpenAI.Data)
        (raw p1 p2 p3 : jsstring) (found : jsstring -> list Google.Item) :
  configured (env w) = true ->
  complete (upstream w) (completionRequest (env w) (Some T)) = Resolved data ->
  firstChoiceText data = Some raw ->
  JSON_parse (Some raw) = Some (JArray [JString p1; JString p2; JString p3]) ->
  p1 <> [] -> p2 <> [] -> p3 <> [] ->
  (forall p, In p [p1; p2; p3] ->
             imageSearch (upstream w) (searchRequest (env w) (JString p))
             = Resolved {| Google.items := Some (found p) |}) ->
  let mapped (item : Google.Item) : ImageResult :=
    {| link := Google.link item;
       displayLink := Google.displayLink item;
       title := Google.title item |} in
  fst (run (action (lessonRequest T)) w)
  = Returned {| body := Aggregated
                          {| searchTerms := [JString p1; JString p2; JString p3];
                             results := map mapped (found p1)
                                        ++ map mapped (found p2)
                                        ++ map mapped (found p3) |};
                status := 200 |}.
Proof.
  intros Hconf Hcomplete Hraw Hparse _ _ _ Hfound mapped.
  rewrite (@fanout_success (lessonRequest T) w data
             [JString p1; JString p2; JString p3]
             (fun t => found (Stub.phraseOf t))).
  - cbn. now rewrite app_nil_r.
  - assumption.
  - now rewrite queryOf_lessonRequest.
  - now rewrite Hraw.
  - intros t [<- | [<- | [<- | []]]]; cbn [Stub.phraseOf]; apply Hfound; cbn; auto.
Qed.

Lemma C1_witness :
  let mapped (item : Google.Item) : ImageResult :=
    {| link := Google.link item;
       displayLink := Google.displayLink item;
       title := Google.title item |} in
  fst (run (action (lessonRequest Stub.lesson))
           (Stub.world Stub.credentials (Stub.completes (Some Stub.threePhrases))
                       Stub.finds Stub.delays))
  = Returned {| body := Aggregated
                          {| searchTerms := [JString Stub.volcano; JString Stub.plates;
                                             JString Stub.magma];
                             results := map mapped (Stub.images Stub.volcano)
                                        ++ map mapped (Stub.images Stub.plates)
                                        ++ map mapped (Stub.images Stub.magma) |};
                status := 200 |}.
Proof.
  apply (@C1_three_phrases_aggregated Stub.lesson _
           {| OpenAI.choices := [ {| OpenAI.text := Some Stub.threePhrases |} ] |}
           Stub.threePhrases Stub.volcano Stub.plates Stub.magma Stub.images).
  - reflexivity.
  - reflexivity.
  - reflexivity.
  - vm_compute. reflexivity.
  - discriminate.
  - discriminate.
  - discriminate.
  - intros p _. reflexivity.
Defined.

(** The same run, value by value: the extra member of each item is gone
    and the three others are kept. *)
Example three_phrases_response :
  let image (host name : jsstring) : ImageResult :=
    {| link := JS.utf16 "https://" ++ host ++ JS.utf16 "/" ++ name;
       displayLink := host;
       title := name |} in
  fst (run (action (lessonRequest Stub.lesson))
           (Stub.world Stub.credentials (Stub.completes (Some Stub.threePhrases))
                       Stub.finds Stub.delays))
  = Returned {| body := Aggregated
                          {| searchTerms := [JString (JS.utf16 "volcano eruption");
                                             JString (JS.utf16 "tectonic plates map");
                                             JString (JS.utf16 "magma chamber diagram")];
                             results :=
                               [ image (JS.utf16 "a.example") (JS.utf16 "volcano eruption");
                                 image (JS.utf16 "b.example") (JS.utf16 "volcano eruption");
                                 image (JS.utf16 "a.example") (JS.utf16 "tectonic plates map");
                                 image (JS.utf16 "b.example") (JS.utf16 "tectonic plates map");
                                 image (JS.utf16 "a.example") (JS.utf16 "magma chamber diagram");
                                 image (JS.utf16 "b.example") (JS.utf16 "magma chamber diagram") ] |};
                status := 200 |}.
Proof. vm_compute. reflexivity. Qed.

(** A failed completion call is thrown as it is, an
    [UpstreamGenerationError], and no search goes out. *)
Lemma completion_failure_short_circuits (request : Request) (w : World) (reason : jsstring) :
  configured (env w) = true ->
  complete (upstream w) (completionRequest (env w) (queryOf request)) = Failed reason ->
  exists e, run (action request) w
            = (Threw e, [Post (completionRequest (env w) (queryOf request))])
            /\ UpstreamGenerationError e.
Proof.
  intros Hconf Hfail.
  rewrite action_configured by assumption. cbn zeta. rewrite Hfail.
  eexists. split; [reflexivity |]. unfold UpstreamGenerationError. eauto.
Qed.

(** ** Failure of a search *)

(** When the join of the fan-out is rejected, the run throws the rejection
    of one of the terms' promises, after all the searches went out. *)
Lemma fanout_rejected (request : Request) (w : World) (data : OpenAI.Data)
      (terms : list JSON) (t0 : JSON) (e0 : Thrown) :
  configured (env w) = true ->
  complete (upstream w) (completionRequest (env w) (queryOf request)) = Resolved data ->
  JSON_parse (firstChoiceText data) = Some (JArray terms) ->
  In t0 terms -> searchPromise w t0 = Rejected e0 ->
  exists t e,
    In t terms /\ searchPromise w t = Rejected e
    /\ run (action request) w
       = (Threw e, Post (completionRequest (env w) (queryOf request))
                        :: map (fun t => Get (searchRequest (env w) t)) terms).
Proof.
  intros Hconf Hcomplete Hparse Hin Hrej.
  rewrite action_configured by assumption. cbn zeta.
  rewrite Hcomplete, Hparse.
  assert (Hin' : In (Rejected e0) (map (searchPromise w) terms)).
  { rewrite <- Hrej. now apply in_map. }
  destruct (first_rejection_Some (latency w) _ 0 _ Hin') as (lat & e & Hfirst).
  rewrite Hfirst.
  apply first_rejection_In in Hfirst.
  apply in_map_iff in Hfirst as (t & Ht & Hint).
  exists t, e. auto.
Qed.

(** What does hold when a search fails: the run throws, whatever the
    other searches answered and in whatever order the answers arrive, so no
    response is built from partial results; and the value thrown is the
    failure of one of the failed searches provided the searches that were
    answered carry [items]. *)
Lemma search_failure_fails_the_run
      (request : Request) (w : World) (data : OpenAI.Data)
      (terms : list JSON) (i : nat) (term : JSON) (reason : jsstring) :
  configured (env w) = true ->
  complete (upstream w) (completionRequest (env w) (queryOf request)) = Resolved data ->
  JSON_parse (firstChoiceText data) = Some (JArray terms) ->
  nth_error terms i = Some term ->
  imageSearch (upstream w) (searchRequest (env w) term) = Failed reason ->
  exists e,
    fst (run (action request) w) = Threw e
    /\ (forall resp, fst (run (action request) w) <> Returned resp)
    /\ (answers_carry_items w terms ->
        UpstreamSearchError e
        /\ exists t r, In t terms
                       /\ imageSearch (upstream w) (searchRequest (env w) t) = Failed r
                       /\ e = AxiosError (Get (searchRequest (env w) t)) r).
Proof.
  intros Hconf Hcomplete Hparse Hnth Hfail.
  destruct (@fanout_rejected request w data terms term _ Hconf Hcomplete Hparse
              (nth_error_In _ _ Hnth) (searchPromise_failed w term Hfail))
    as (t & e & Hin & Hrej & Hrun).
  exists e. rewrite Hrun. cbn [fst].
  split; [reflexivity |]. split; [discriminate |].
  intro Hitems.
  destruct (searchPromise_rejected w t Hrej) as [(r & Hr & ->) | (Hnone & _)].
  - split; [unfold UpstreamSearchError; eauto | eauto].
  - exfalso. exact (Hitems t _ Hin Hnone eq_refl).
Qed.

(** C2, on the code. The search for the first of three phrases fails with
    status 503 after 300; the search for the second is answered after 100
    without an [items] field; the third is answered with items. The run
    fails, but not with an [UpstreamSearchError]: the [TypeError] of the
    unguarded [items.map] of the second search reaches [Promise.all] first
    and is what the run throws. *)
Theorem C2_type_error_instead_of_search_error :
  let search (req : SearchRequest) : AxiosResult Google.Data :=
    if jsstring_eqb (Stub.phraseOf (q req)) Stub.volcano
    then Failed (JS.utf16 "Request failed with status code 503")
    else if jsstring_eqb (Stub.phraseOf (q req)) Stub.plates
         then Resolved {| Google.items := None |}
         else Stub.finds req in
  let w := Stub.world Stub.credentials (Stub.completes (Some Stub.threePhrases))
                      search Stub.delays in
  JSON_parse (Some Stub.threePhrases)
  = Some (JArray [JString Stub.volcano; JString Stub.plates; JString Stub.magma])
  /\ imageSearch (upstream w) (searchRequest (env w) (JString Stub.volcano))
     = Failed (JS.utf16 "Request failed with status code 503")
  /\ fst (run (action (lessonRequest Stub.lesson)) w) = Threw TypeError
  /\ ~ UpstreamSearchError TypeError.
Proof.
  cbv zeta. repeat split; try (vm_compute; reflexivity).
  intros (req & reason & H). discriminate.
Qed.

(** ** Validation of the completion output *)

(** Whatever is not the text of a JSON array gets the 400 response, and no
    search goes out. *)
Lemma not_an_array_rejected (request : Request) (w : World) (data : OpenAI.Data) :
  configured (env w) = true ->
  complete (upstream w) (completionRequest (env w) (queryOf request)) = Resolved data ->
  (forall terms, JSON_parse (firstChoiceText data) <> Some (JArray terms)) ->
  run (action request) w
  = (Returned InvalidGenerationFormat,
     [Post (completionRequest (env w) (queryOf request))]).
Proof.
  intros Hconf Hcomplete Hnot.
  rewrite action_configured by assumption. cbn zeta. rewrite Hcomplete.
  destruct (JSON_parse (firstChoiceText data)) as [[] |] eqn:Hparse;
    try reflexivity.
  now elim (Hnot elements).
Qed.

(** The text of an array is never rejected as a format error, whatever
    its length and its elements. *)
Lemma an_array_accepted (request : Request) (w : World) (data : OpenAI.Data)
      (terms : list JSON) :
  configured (env w) = true ->
  complete (upstream w) (completionRequest (env w) (queryOf request)) = Resolved data ->
  JSON_parse (firstChoiceText data) = Some (JArray terms) ->
  snd (run (action request) w)
  = Post (completionRequest (env w) (queryOf request))
         :: map (fun t => Get (searchRequest (env w) t)) terms
  /\ forall resp,
      fst (run (action request) w) = Returned resp ->
      resp = json (Aggregated
                     {| searchTerms := terms;
                        results := List.concat
                                     (fulfilled_values (map (searchPromise w) terms)) |})
                  None.
Proof.
  intros Hconf Hcomplete Hparse.
  rewrite action_configured by assumption. cbn zeta. rewrite Hcomplete, Hparse.
  destruct (first_rejection (latency w) 0 (map (searchPromise w) terms))
    as [[t e] |]; cbn [fst snd].
  - split; [reflexivity | discriminate].
  - split; [reflexivity |]. now intros resp [= <-].
Qed.

Lemma search_calls_fanout (e : Env) (req : CompletionRequest) (terms : list JSON) :
  search_calls (Post req :: map (fun t => Get (searchRequest e t)) terms)
  = map (searchRequest e) terms.
Proof. cbn. induction terms as [| t terms IH]; cbn; congruence. Qed.

(** C3, as the code has it. A completion output is rejected with
    [InvalidGenerationFormat] exactly when it is not the text of a JSON
    array; neither the number of elements nor their type is checked. On a
    successful run the phrase set is the parsed array as it is, of any
    length, and the fan-out issues one search per element. *)
Theorem C3_only_arrays_are_checked
        (request : Request) (w : World) (data : OpenAI.Data) :
  configured (env w) = true ->
  complete (upstream w) (completionRequest (env w) (queryOf request)) = Resolved data ->
  (fst (run (action request) w) = Returned InvalidGenerationFormat
   <-> forall terms, JSON_parse (firstChoiceText data) <> Some (JArray terms))
  /\ forall terms,
      JSON_parse (firstChoiceText data) = Some (JArray terms) ->
      List.length (search_calls (snd (run (action request) w))) = List.length terms
      /\ forall resp,
          fst (run (action request) w) = Returned resp ->
          exists r, body resp = Aggregated r /\ searchTerms r = terms.
Proof.
  intros Hconf Hcomplete. split; [split |].
  - intros Hrun terms Hparse.
    destruct (@an_array_accepted request w data terms Hconf Hcomplete Hparse) as [_ Hresp].
    specialize (Hresp _ Hrun). discriminate.
  - intro Hnot. now rewrite (@not_an_array_rejected request w data Hconf Hcomplete Hnot).
  - intros terms Hparse.
    destruct (@an_array_accepted request w data terms Hconf Hcomplete Hparse) as [Hlog Hresp].
    split.
    + rewrite Hlog, search_calls_fanout. apply List.length_map.
    + intros resp Hrun. rewrite (Hresp _ Hrun). cbn. eauto.
Qed.

Lemma C3_witness :
  let w := Stub.world Stub.credentials (Stub.completes (Some (JS.utf16 "[7, null]")))
                      Stub.finds Stub.delays in
  let data := {| OpenAI.choices := [ {| OpenAI.text := Some (JS.utf16 "[7, null]") |} ] |} in
  (fst (run (action (lessonRequest Stub.lesson)) w) = Returned InvalidGenerationFormat
   <-> forall terms, JSON_parse (firstChoiceText data) <> Some (JArray terms))
  /\ forall terms,
      JSON_parse (firstChoiceText data) = Some (JArray terms) ->
      List.length (search_calls (snd (run (action (lessonRequest Stub.lesson)) w))) = List.length terms
      /\ forall resp,
          fst (run (action (lessonRequest Stub.lesson)) w) = Returned resp ->
          exists r, body resp = Aggregated r /\ searchTerms r = terms.
Proof.
  intros w data.
  apply (@C3_only_arrays_are_checked (lessonRequest Stub.lesson) w data).
  - reflexivity.
  - reflexivity.
Defined.

(** C3, as stated, fails: the completion output [[7, null]] has two
    elements, neither of them a string, and the run succeeds with them as
    its search terms after two searches. *)
Lemma C3_counterexample :
  ~ (forall (request : Request) (w : World) (resp : Response),
        configured (env w) = true ->
        fst (run (action request) w) = Returned resp ->
        resp = InvalidGenerationFormat
        \/ (exists p1 p2 p3,
               p1 <> [] /\ p2 <> [] /\ p3 <> []
               /\ (exists rs, body resp
                              = Aggregated {| searchTerms := [JString p1; JString p2; JString p3];
                                              results := rs |})
               /\ List.length (search_calls (snd (run (action request) w))) = 3)).
Proof.
  intro H.
  pose (w := Stub.world Stub.credentials (Stub.completes (Some (JS.utf16 "[7, null]")))
                        Stub.finds Stub.delays).
  destruct (H (lessonRequest Stub.lesson) w
              (json (Aggregated
                       {| searchTerms := [JNumber (JS.utf16 "7"); JNull];
                          results := map toImageResult (Stub.images [])
                                     ++ map toImageResult (Stub.images []) |})
                    None)
              eq_refl) as [Hbad | (p1 & p2 & p3 & _ & _ & _ & _ & Hcalls)].
  - vm_compute. reflexivity.
  - vm_compute in Hbad. discriminate.
  - vm_compute in Hcalls. discriminate.
Qed.

(** C4. If the raw completion output is not parseable JSON, or parses to a
    value that is not an array (an object or a scalar), the run returns the
    [InvalidGenerationFormat] response, of status 400, and no search call has
    gone out. *)
Theorem C4_unparseable_or_not_a_sequence
        (request : Request) (w : World) (data : OpenAI.Data) (raw : jsstring) :
  configured (env w) = true ->
  complete (upstream w) (completionRequest (env w) (queryOf request)) = Resolved data ->
  firstChoiceText data = Some raw ->
  (JSON_parse (Some raw) = None
   \/ exists v, JSON_parse (Some raw) = Some v /\ isArray v = false) ->
  fst (run (action request) w) = Returned InvalidGenerationFormat
  /\ status InvalidGenerationFormat = 400%N
  /\ search_calls (snd (run (action request) w)) = [].
Proof.
  intros Hconf Hcomplete Hraw Hbad.
  rewrite (@not_an_array_rejected request w data Hconf Hcomplete).
  - repeat split.
  - intros terms. rewrite Hraw.
    destruct Hbad as [-> | (v & -> & Hv)]; [discriminate |].
    intros [= ->]. discriminate.
Qed.

Lemma C4_witness :
  let w := Stub.world Stub.credentials (Stub.completes (Some (JS.utf16 "not json")))
                      Stub.finds Stub.delays in
  fst (run (action (lessonRequest Stub.lesson)) w) = Returned InvalidGenerationFormat
  /\ status InvalidGenerationFormat = 400%N
  /\ search_calls (snd (run (action (lessonRequest Stub.lesson)) w)) = [].
Proof.
  intro w.
  apply (@C4_unparseable_or_not_a_sequence
           (lessonRequest Stub.lesson) w
           {| OpenAI.choices := [ {| OpenAI.text := Some (JS.utf16 "not json") |} ] |}
           (JS.utf16 "not json")).
  - reflexivity.
  - reflexivity.
  - reflexivity.
  - left. vm_compute. reflexivity.
Defined.

(** An object is rejected like any other value that is not an array. *)
Example object_rejected :
  let raw := JS.utf16 "{" ++ Stub.quoted (JS.utf16 "a") ++ JS.utf16 ":1}" in
  JSON_parse (Some raw) = Some (JObject [(JS.utf16 "a", JNumber (JS.utf16 "1"))])
  /\ run (action (lessonRequest Stub.lesson))
         (Stub.world Stub.credentials (Stub.completes (Some raw)) Stub.finds Stub.delays)
     = (Returned InvalidGenerationFormat,
        [Post (completionRequest Stub.credentials (Some Stub.lesson))]).
Proof. split; vm_compute; reflexivity. Qed.

(** [JSON.parse(undefined)] throws: the text [undefined] is not JSON. *)
Lemma JSON_parse_undefined : JSON_parse None = None.
Proof. vm_compute. reflexivity. Qed.

(** C10. If the completion response has no choices, or a first choice
    without text, the extracted raw text is [undefined], [JSON.parse] fails
    on it, and the run returns the [InvalidGenerationFormat] response of
    status 400: nothing is thrown. *)
Theorem C10_no_choice_or_no_text
        (request : Request) (w : World) (data : OpenAI.Data) :
  configured (env w) = true ->
  complete (upstream w) (completionRequest (env w) (queryOf request)) = Resolved data ->
  (OpenAI.choices data = []
   \/ exists choice rest, OpenAI.choices data = choice :: rest
                          /\ OpenAI.text choice = None) ->
  firstChoiceText data = None
  /\ JSON_parse (firstChoiceText data) = None
  /\ fst (run (action request) w) = Returned InvalidGenerationFormat
  /\ status InvalidGenerationFormat = 400%N
  /\ forall e, fst (run (action request) w) <> Threw e.
Proof.
  intros Hconf Hcomplete Habsent.
  assert (Hraw : firstChoiceText data = None).
  { unfold firstChoiceText.
    destruct Habsent as [-> | (choice & rest & -> & Htext)]; [reflexivity | exact Htext]. }
  rewrite (@not_an_array_rejected request w data Hconf Hcomplete).
  - rewrite Hraw, JSON_parse_undefined. cbn [fst]. repeat split. discriminate.
  - intro terms. rewrite Hraw, JSON_parse_undefined. discriminate.
Qed.

Lemma C10_witness :
  let w := Stub.world Stub.credentials Stub.no_choice Stub.finds Stub.delays in
  let data := {| OpenAI.choices := [] |} in
  firstChoiceText data = None
  /\ JSON_parse (firstChoiceText data) = None
  /\ fst (run (action (lessonRequest Stub.lesson)) w) = Returned InvalidGenerationFormat
  /\ status InvalidGenerationFormat = 400%N
  /\ forall e, fst (run (action (lessonRequest Stub.lesson)) w) <> Threw e.
Proof.
  intros w data.
  apply (@C10_no_choice_or_no_text (lessonRequest Stub.lesson) w data).
  - reflexivity.
  - reflexivity.
  - left. reflexivity.
Defined.

(** C9. When the completion output parses to an array of [n] elements,
    whatever [n] and whatever the elements, the run issues exactly [n] search
    calls, one per element in array order; if it succeeds, [searchTerms] is
    that array, of length [n]; no count is rejected. For [n = 0] the run
    succeeds with empty [searchTerms] and empty [results]. *)
Theorem C9_one_search_per_element
        (request : Request) (w : World) (data : OpenAI.Data) (terms : list JSON) :
  configured (env w) = true ->
  complete (upstream w) (completionRequest (env w) (queryOf request)) = Resolved data ->
  JSON_parse (firstChoiceText data) = Some (JArray terms) ->
  search_calls (snd (run (action request) w)) = map (searchRequest (env w)) terms
  /\ map q (search_calls (snd (run (action request) w))) = terms
  /\ List.length (search_calls (snd (run (action request) w))) = List.length terms
  /\ (forall resp,
         fst (run (action request) w) = Returned resp ->
         status resp = 200%N
         /\ exists r, body resp = Aggregated r
                      /\ searchTerms r = terms
                      /\ List.length (searchTerms r) = List.length terms)
  /\ (terms = [] ->
      fst (run (action request) w)
      = Returned (json (Aggregated {| searchTerms := []; results := [] |}) None)).
Proof.
  intros Hconf Hcomplete Hparse.
  destruct (@an_array_accepted request w data terms Hconf Hcomplete Hparse)
    as [Hlog Hresp].
  rewrite Hlog, search_calls_fanout.
  split; [reflexivity |]. split; [| split; [| split]].
  - rewrite map_map. cbn. apply map_id.
  - apply List.length_map.
  - intros resp Hrun. rewrite (Hresp _ Hrun). cbn. eauto.
  - intros ->.
    rewrite (@fanout_success request w data [] (fun _ => []) Hconf Hcomplete Hparse).
    + reflexivity.
    + intros t [].
Qed.

Lemma C9_witness :
  let w := Stub.world Stub.credentials (Stub.completes (Some (JS.utf16 "[7, null]")))
                      Stub.finds Stub.delays in
  let terms := [JNumber (JS.utf16 "7"); JNull] in
  let run0 := run (action (lessonRequest Stub.lesson)) w in
  search_calls (snd run0) = map (searchRequest (env w)) terms
  /\ map q (search_calls (snd run0)) = terms
  /\ List.length (search_calls (snd run0)) = List.length terms
  /\ (forall resp,
         fst run0 = Returned resp ->
         status resp = 200%N
         /\ exists r, body resp = Aggregated r
                      /\ searchTerms r = terms
                      /\ List.length (searchTerms r) = List.length terms)
  /\ (terms = [] ->
      fst run0 = Returned (json (Aggregated {| searchTerms := []; results := [] |}) None)).
Proof.
  intros w terms run0.
  apply (@C9_one_search_per_element
           (lessonRequest Stub.lesson) w
           {| OpenAI.choices := [ {| OpenAI.text := Some (JS.utf16 "[7, null]") |} ] |}
           terms).
  - reflexivity.
  - reflexivity.
  - vm_compute. reflexivity.
Defined.

(** With no element there is nothing to search for, and the run succeeds
    even when the search service is down. *)
Example empty_array_succeeds :
  run (action (lessonRequest Stub.lesson))
      (Stub.world Stub.credentials (Stub.completes (Some (JS.utf16 "[]")))
                  (fun _ => Failed (JS.utf16 "Network Error")) Stub.delays)
  = (Returned (json (Aggregated {| searchTerms := []; results := [] |}) None),
     [Post (completionRequest Stub.credentials (Some Stub.lesson))]).
Proof. vm_compute. reflexivity. Qed.

(** ** A search that finds nothing *)

(** An answer whose [items] is present and empty gives the empty
    sequence. *)
Lemma empty_items_empty_sequence (w : World) (term : JSON) :
  imageSearch (upstream w) (searchRequest (env w) term)
  = Resolved {| Google.items := Some [] |} ->
  fst (run (searchTerm term) w) = Returned (Fulfilled []).
Proof.
  intro H. unfold run, searchTerm, bind, process_env, axios_get, ret. cbn.
  now rewrite H.
Qed.

(** C5, on the code. A search answered without an [items] field does not
    give the empty sequence: mapping the absent field throws a [TypeError],
    the promise of that search is rejected and the whole run fails, where an
    empty [items] goes through. *)
Theorem C5_absent_items_throws :
  let nothing := Stub.world Stub.credentials (Stub.completes (Some Stub.threePhrases))
                            Stub.finds_nothing Stub.delays in
  let empty := Stub.world Stub.credentials (Stub.completes (Some Stub.threePhrases))
                          Stub.finds_empty Stub.delays in
  mapItems {| Google.items := None |} = Threw TypeError
  /\ fst (run (searchTerm (JString Stub.volcano)) nothing) = Returned (Rejected TypeError)
  /\ fst (run (action (lessonRequest Stub.lesson)) nothing) = Threw TypeError
  /\ fst (run (searchTerm (JString Stub.volcano)) empty) = Returned (Fulfilled [])
  /\ fst (run (action (lessonRequest Stub.lesson)) empty)
     = Returned (json (Aggregated
                         {| searchTerms := [JString Stub.volcano; JString Stub.plates;
                                            JString Stub.magma];
                            results := [] |}) None).
Proof. cbv zeta. repeat split; vm_compute; reflexivity. Qed.

(** ** Credentials *)

(** C6, as the code has it. A missing (or empty) credential is found on
    each request to [action]: the run throws the [ConfigurationError] of the
    first failing [invariant] before any outbound call. Nothing is checked
    when the process starts, and [loader] serves its requests all the
    same. *)
Theorem C6_credentials_checked_per_action
        (request : Request) (w : World) :
  configured (env w) = false ->
  (exists e, fst (run (action request) w) = Threw e /\ ConfigurationError e)
  /\ snd (run (action request) w) = []
  /\ run loader w = (Returned (json EmptyObject None), []).
Proof.
  intro Hconf.
  destruct (action_unconfigured w request Hconf) as (message & ->).
  cbn [fst snd]. repeat split.
  exists (InvariantError message). split; [reflexivity |].
  now exists message.
Qed.

Lemma C6_witness :
  let w := Stub.world Stub.no_credentials (Stub.completes (Some Stub.threePhrases))
                      Stub.finds Stub.delays in
  (exists e, fst (run (action (lessonRequest Stub.lesson)) w) = Threw e
             /\ ConfigurationError e)
  /\ snd (run (action (lessonRequest Stub.lesson)) w) = []
  /\ run loader w = (Returned (json EmptyObject None), []).
Proof.
  intro w.
  apply (@C6_credentials_checked_per_action (lessonRequest Stub.lesson) w).
  reflexivity.
Defined.

(** C6, as stated, fails: with no credential at all, a request to the
    route's [loader] is processed and answered with status 200. *)
Lemma C6_counterexample :
  ~ (forall (w : World) (request : Request),
        configured (env w) = false ->
        (forall resp, fst (run loader w) <> Returned resp)
        /\ (forall resp, fst (run (action request) w) <> Returned resp)).
Proof.
  intro H.
  destruct (H (Stub.world Stub.no_credentials (Stub.completes None)
                          Stub.finds Stub.delays)
              (lessonRequest Stub.lesson) eq_refl) as [Hloader _].
  exact (Hloader (json EmptyObject None) eq_refl).
Qed.

(** The error names the first credential found missing; an empty string
    counts as missing. *)
Example first_missing_credential :
  run (action (lessonRequest Stub.lesson))
      (Stub.world {| OPENAI_API_KEY := Some (JS.utf16 "sk-test");
                     CUSTOM_SEARCH_KEY := Some [];
                     CUSTOM_SEARCH_CX := None;
                     NODE_ENV := None |}
                  (Stub.completes (Some Stub.threePhrases)) Stub.finds Stub.delays)
  = (Threw (InvariantError (JS.utf16 "Invariant failed: CUSTOM_SEARCH_KEY must be set")), []).
Proof. vm_compute. reflexivity. Qed.

(** ** Determinism *)

(** The promise of a term depends on the environment and the services
    only. *)
Lemma searchPromise_latency (e : Env) (up : Upstream) (lat1 lat2 : nat -> N) (term : JSON) :
  searchPromise {| env := e; upstream := up; latency := lat1 |} term
  = searchPromise {| env := e; upstream := up; latency := lat2 |} term.
Proof. reflexivity. Qed.

(** C7. The response of a run is a function of the request, the
    environment and the two services' answers: if one run returns a response,
    every run on the same inputs returns the same response after the same
    outbound calls, in whatever order the answers of the searches arrive. *)
Theorem C7_same_inputs_same_response
        (request : Request) (e : Env) (up : Upstream) (lat1 lat2 : nat -> N)
        (resp : Response) (log : list Call) :
  run (action request) {| env := e; upstream := up; latency := lat1 |} = (Returned resp, log) ->
  run (action request) {| env := e; upstream := up; latency := lat2 |} = (Returned resp, log).
Proof.
  set (w1 := {| env := e; upstream := up; latency := lat1 |}).
  set (w2 := {| env := e; upstream := up; latency := lat2 |}).
  destruct (configured e) eqn:Hconf.
  - rewrite (@action_configured w1 request Hconf), (@action_configured w2 request Hconf).
    cbn zeta. cbn [env upstream latency w1 w2].
    destruct (complete up (completionRequest e (queryOf request))) as [data | reason];
      [| trivial].
    destruct (JSON_parse (firstChoiceText data)) as [[] |]; trivial.
    rewrite (map_ext (searchPromise w1) (searchPromise w2))
      by (intro; apply searchPromise_latency).
    destruct (first_rejection lat1 0 (map (searchPromise w2) elements))
      as [[t1 e1] |] eqn:H1; [discriminate |].
    now rewrite (first_rejection_None_any lat1 lat2 _ 0 0 H1).
  - destruct (action_unconfigured w1 request Hconf) as (message & ->). discriminate.
Qed.

Lemma C7_witness :
  run (action (lessonRequest Stub.lesson))
      {| env := Stub.credentials;
         upstream := {| complete := Stub.completes (Some Stub.threePhrases);
                        imageSearch := Stub.finds |};
         latency := fun _ => 0%N |}
  = (Returned (json (Aggregated
                       {| searchTerms := [JString Stub.volcano; JString Stub.plates;
                                          JString Stub.magma];
                          results := map toImageResult
                                         (Stub.images Stub.volcano ++ Stub.images Stub.plates
                                          ++ Stub.images Stub.magma) |}) None),
     Post (completionRequest Stub.credentials (Some Stub.lesson))
          :: map (fun p => Get (searchRequest Stub.credentials (JString p)))
                 [Stub.volcano; Stub.plates; Stub.magma]).
Proof.
  apply (@C7_same_inputs_same_response _ _ _ Stub.delays).
  vm_compute. reflexivity.
Defined.

(** When two searches fail, which failure the run throws depends on which
    arrives first: only the response of a run is fixed by its inputs. *)
Example thrown_error_depends_on_timing :
  let run_with lat :=
    fst (run (action (lessonRequest Stub.lesson))
             (Stub.world Stub.credentials (Stub.completes (Some Stub.threePhrases))
                         (fun req => Failed (Stub.phraseOf (q req))) lat)) in
  run_with Stub.delays
  = Threw (AxiosError (Get (searchRequest Stub.credentials (JString Stub.plates))) Stub.plates)
  /\ run_with (fun _ => 0%N)
     = Threw (AxiosError (Get (searchRequest Stub.credentials (JString Stub.volcano)))
                         Stub.volcano).
Proof. split; vm_compute; reflexivity. Qed.


(** ** The prompt and the lesson text *)

Lemma prompt_lines_split (query : jsstring) :
  prompt_lines query = promptBefore ++ query :: promptAfter.
Proof. reflexivity. Qed.

(** The prompt is the lesson text between two fixed texts. *)
Lemma buildPrompt_shape (query : option jsstring) :
  buildPrompt query = promptHead ++ JS.ToString "null" query ++ promptTail.
Proof.
  unfold buildPrompt, promptHead, promptTail.
  rewrite prompt_lines_split, map_app, concat_app. cbn [map List.concat].
  now rewrite <- !app_assoc.
Qed.

(** The prompt determines the lesson text: two lesson texts with the same
    prompt are the same text. *)
Theorem buildPrompt_injective (T1 T2 : jsstring) :
  buildPrompt (Some T1) = buildPrompt (Some T2) -> T1 = T2.
Proof.
  rewrite !buildPrompt_shape. cbn [JS.ToString]. intro H.
  apply app_inv_head in H. now apply app_inv_tail in H.
Qed.

Lemma buildPrompt_injective_witness : Stub.lesson = Stub.lesson.
Proof. apply (@buildPrompt_injective Stub.lesson Stub.lesson). reflexivity. Defined.

(** Reading a field of a form: the entries before the first of that name
    do not matter, and neither does anything after it. *)
Lemma FormData_get_first (name value : jsstring) (before rest : list (jsstring * jsstring)) :
  (forall k v, In (k, v) before -> k <> name) ->
  FormData_get name (before ++ (name, value) :: rest) = Some value.
Proof.
  intro Hbefore. induction before as [| [k v] before IH]; cbn.
  - unfold jsstring_eqb. now destruct (list_eq_dec N.eq_dec name name).
  - unfold jsstring_eqb at 1. destruct (list_eq_dec N.eq_dec k name) as [-> | _].
    + now elim (Hbefore name v (or_introl eq_refl)).
    + apply IH. intros k' v' Hin. apply (Hbefore k' v'). now right.
Qed.

Lemma FormData_get_none (name : jsstring) (fields : list (jsstring * jsstring)) :
  (forall k v, In (k, v) fields -> k <> name) ->
  FormData_get name fields = None.
Proof.
  intro Hnone. induction fields as [| [k v] fields IH]; cbn; [reflexivity |].
  unfold jsstring_eqb at 1. destruct (list_eq_dec N.eq_dec k name) as [-> | _].
  - now elim (Hnone name v (or_introl eq_refl)).
  - apply IH. intros k' v' Hin. apply (Hnone k' v'). now right.
Qed.

(** The first call of a configured run on a form. *)
Lemma first_call_of_form (entries : list (jsstring * FormDataEntryValue)) (w : World) :
  configured (env w) = true ->
  hd_error (snd (run (action_from_request (FormBody entries)) w))
  = Some (Post (completionRequest (env w) (queryOf (readForm entries)))).
Proof.
  intro Hconf.
  change (run (action_from_request (FormBody entries)) w)
    with (run (action (readForm entries)) w).
  rewrite (@action_configured w (readForm entries) Hconf). cbn zeta.
  destruct (complete (upstream w) _) as [data | reason]; [| reflexivity].
  destruct (JSON_parse (firstChoiceText data)) as [[] |]; try reflexivity.
  now destruct (first_rejection (latency w) 0 _) as [[t e] |].
Qed.

(** What goes out first, with the credentials set, is the completion
    request for the form's lesson text: the value of the first field named
    [query], whatever comes after it (a file is printed as [[object File]]);
    without such a field, the text [null]. The request goes to the
    completions endpoint with the key as bearer token, the fixed model and a
    limit of 256 tokens. *)
Theorem action_posts_first_query (w : World) (apiKey : jsstring) :
  configured (env w) = true ->
  OPENAI_API_KEY (env w) = Some apiKey ->
  let posted (text : jsstring) :=
    Some (Post {| post_url := completions_url;
                  Authorization := JS.utf16 "Bearer " ++ apiKey;
                  model := JS.utf16 "text-davinci-003";
                  prompt := promptHead ++ text ++ promptTail;
                  max_tokens := 256 |}) in
  (forall before value rest,
      (forall k v, In (k, v) before -> k <> JS.utf16 "query") ->
      hd_error (snd (run (action_from_request
                            (FormBody (before ++ (JS.utf16 "query", value) :: rest))) w))
      = posted (entryText value))
  /\ (forall entries,
         (forall k v, In (k, v) entries -> k <> JS.utf16 "query") ->
         hd_error (snd (run (action_from_request (FormBody entries)) w))
         = posted (JS.utf16 "null")).
Proof.
  intros Hconf Hkey posted. split.
  - intros before value rest Hbefore.
    rewrite first_call_of_form by assumption.
    unfold queryOf, readForm. cbn [formData].
    rewrite map_app. cbn [map fst snd].
    rewrite FormData_get_first.
    + unfold posted, completionRequest. rewrite Hkey, buildPrompt_shape. reflexivity.
    + intros k v Hin. apply in_map_iff in Hin as ([k' v'] & [= <- <-] & Hin).
      exact (Hbefore _ _ Hin).
  - intros entries Hnone.
    rewrite first_call_of_form by assumption.
    unfold queryOf, readForm. cbn [formData].
    rewrite FormData_get_none.
    + unfold posted, completionRequest. rewrite Hkey, buildPrompt_shape. reflexivity.
    + intros k v Hin. apply in_map_iff in Hin as ([k' v'] & [= <- <-] & Hin).
      exact (Hnone _ _ Hin).
Qed.

Lemma action_posts_first_query_witness :
  let w := Stub.world Stub.credentials (Stub.completes (Some Stub.threePhrases))
                      Stub.finds Stub.delays in
  hd_error (snd (run (action_from_request
                        (FormBody ([(JS.utf16 "lang", FieldString (JS.utf16 "pt"))]
                                   ++ (JS.utf16 "query", FieldString Stub.lesson)
                                   :: [(JS.utf16 "query", FieldString Stub.volcano)])))
                     w))
  = Some (Post {| post_url := completions_url;
                  Authorization := JS.utf16 "Bearer " ++ JS.utf16 "sk-test";
                  model := JS.utf16 "text-davinci-003";
                  prompt := promptHead ++ entryText (FieldString Stub.lesson) ++ promptTail;
                  max_tokens := 256 |}).
Proof.
  intro w.
  destruct (@action_posts_first_query w (JS.utf16 "sk-test") eq_refl eq_refl)
    as [Hfirst _].
  refine (Hfirst [(JS.utf16 "lang", FieldString (JS.utf16 "pt"))]
                 (FieldString Stub.lesson)
                 [(JS.utf16 "query", FieldString Stub.volcano)] _).
  intros k v [[= <- <-] | []]. discriminate.
Defined.

(** ** Which credential is reported *)

(** Once the form is read, the credentials are checked in the order of
    the source, an empty string counting as missing, and nothing has gone
    out when a check fails. The error is that of [tiny-invariant]: its
    message is [Invariant failed] followed by the message of the first check
    that fails, or the bare [Invariant failed] in production. *)
Theorem first_failing_invariant (entries : list (jsstring * FormDataEntryValue))
        (w : World) :
  let failed (message : string) : Completion Response * list Call :=
    (Threw (InvariantError
              (if isProduction (env w) then JS.utf16 "Invariant failed"
               else JS.utf16 "Invariant failed: " ++ JS.utf16 message)), []) in
  (JS.truthy (OPENAI_API_KEY (env w)) = false ->
   run (action_from_request (FormBody entries)) w = failed "OPENAI_API_KEY must be set"%string)
  /\ (JS.truthy (OPENAI_API_KEY (env w)) = true ->
      JS.truthy (CUSTOM_SEARCH_KEY (env w)) = false ->
      run (action_from_request (FormBody entries)) w = failed "CUSTOM_SEARCH_KEY must be set"%string)
  /\ (JS.truthy (OPENAI_API_KEY (env w)) = true ->
      JS.truthy (CUSTOM_SEARCH_KEY (env w)) = true ->
      JS.truthy (CUSTOM_SEARCH_CX (env w)) = false ->
      run (action_from_request (FormBody entries)) w = failed "CUSTOM_SEARCH_CX must be set"%string).
Proof.
  cbv zeta.
  unfold run, action_from_request, request_formData, action, bind, ret, process_env,
    invariant, invariantMessage.
  repeat split.
  - intros ->. now destruct (isProduction (env w)).
  - intros -> ->. now destruct (isProduction (env w)).
  - intros -> -> ->. now destruct (isProduction (env w)).
Qed.

Lemma first_failing_invariant_witness :
  run (action_from_request (FormBody [(JS.utf16 "query", FieldString Stub.lesson)]))
      (Stub.world {| OPENAI_API_KEY := Some (JS.utf16 "sk-test");
                     CUSTOM_SEARCH_KEY := Some (JS.utf16 "search-key");
                     CUSTOM_SEARCH_CX := Some [];
                     NODE_ENV := Some (JS.utf16 "production") |}
                  (Stub.completes (Some Stub.threePhrases)) Stub.finds Stub.delays)
  = (Threw (InvariantError (JS.utf16 "Invariant failed")), []).
Proof.
  apply (@first_failing_invariant [(JS.utf16 "query", FieldString Stub.lesson)]);
    reflexivity.
Defined.

Lemma completion_failure_witness :
  let w := Stub.world Stub.credentials (fun _ => Failed (JS.utf16 "Network Error"))
                      Stub.finds Stub.delays in
  exists e, run (action (lessonRequest Stub.lesson)) w
            = (Threw e, [Post (completionRequest (env w) (queryOf (lessonRequest Stub.lesson)))])
            /\ UpstreamGenerationError e.
Proof.
  intro w.
  apply (@completion_failure_short_circuits
           (lessonRequest Stub.lesson) w (JS.utf16 "Network Error"));
    reflexivity.
Defined.

(** ** What a run can end in *)

Section Outcomes.

Variable request : Request.
Variable w : World.

Let creq := completionRequest (env w) (queryOf request).
Let gets (terms : list JSON) := map (fun t => Get (searchRequest (env w) t)) terms.

(** The cases of a run, read backwards from its result. *)
Lemma run_cases :
  (configured (env w) = false
   /\ exists message, run (action request) w = (Threw (InvariantError message), []))
  \/ (configured (env w) = true
      /\ exists reason, complete (upstream w) creq = Failed reason
                        /\ run (action request) w
                           = (Threw (AxiosError (Post creq) reason), [Post creq]))
  \/ (configured (env w) = true
      /\ exists data, complete (upstream w) creq = Resolved data
                      /\ (forall terms, JSON_parse (firstChoiceText data) <> Some (JArray terms))
                      /\ run (action request) w = (Returned InvalidGenerationFormat, [Post creq]))
  \/ (configured (env w) = true
      /\ exists data terms,
          complete (upstream w) creq = Resolved data
          /\ JSON_parse (firstChoiceText data) = Some (JArray terms)
          /\ ((exists t e, first_rejection (latency w) 0 (map (searchPromise w) terms)
                           = Some (t, e)
                           /\ run (action request) w = (Threw e, Post creq :: gets terms))
              \/ (first_rejection (latency w) 0 (map (searchPromise w) terms) = None
                  /\ run (action request) w
                     = (Returned (json (Aggregated
                                          {| searchTerms := terms;
                                             results := List.concat
                                                          (fulfilled_values
                                                             (map (searchPromise w) terms)) |})
                                       None),
                        Post creq :: gets terms)))).
Proof.
  destruct (configured (env w)) eqn:Hconf.
  - right. rewrite (@action_configured w request Hconf). cbn zeta. fold creq.
    destruct (complete (upstream w) creq) as [data | reason] eqn:Hcomplete.
    + right.
      destruct (JSON_parse (firstChoiceText data)) as [v |] eqn:Hparse.
      * destruct (isArray v) eqn:Harr.
        -- right. destruct v; try discriminate. split; [reflexivity |].
           exists data, elements. split; [reflexivity |]. split; [exact Hparse |].
           destruct (first_rejection (latency w) 0 (map (searchPromise w) elements))
             as [[t e] |]; [left; eauto | right; auto].
        -- left. split; [reflexivity |]. exists data. split; [reflexivity |].
           split; [intros terms Ht; rewrite Hparse in Ht; injection Ht as ->; discriminate |].
           destruct v; try reflexivity. discriminate.
      * left. split; [reflexivity |]. exists data. split; [reflexivity |].
        split; [intros terms Ht; rewrite Hparse in Ht; discriminate | reflexivity].
    + left. split; [reflexivity |]. eauto.
  - left. split; [reflexivity |]. apply action_unconfigured, Hconf.
Qed.

End Outcomes.


(** The index of the rejection found, and its latency. *)
Lemma first_rejection_index {A} (lat : nat -> N) (ps : list (Promise A)) :
  forall i t e, first_rejection lat i ps = Some (t, e) ->
                exists j, nth_error ps j = Some (Rejected e) /\ t = lat (i + j)%nat.
Proof.
  induction ps as [| p ps IH]; intros i t e; cbn [first_rejection].
  - discriminate.
  - assert (Hlater : forall t e, first_rejection lat (S i) ps = Some (t, e) ->
                                 exists j, nth_error (p :: ps) j = Some (Rejected e)
                                           /\ t = lat (i + j)%nat).
    { intros t0 e0 H0. destruct (IH _ _ _ H0) as (j & Hj & ->).
      exists (S j). split; [exact Hj | f_equal; lia]. }
    assert (Hhere : forall e0, p = Rejected e0 ->
                               exists j, nth_error (p :: ps) j = Some (Rejected e0)
                                         /\ lat i = lat (i + j)%nat).
    { intros e0 ->. exists 0%nat. split; [reflexivity | f_equal; lia]. }
    destruct p as [a | e0].
    + intro H. exact (Hlater _ _ H).
    + destruct (first_rejection lat (S i) ps) as [[t' e'] |] eqn:Hl.
      * destruct (t' <? lat i)%N; intro H; injection H as <- <-.
        -- exact (Hlater _ _ eq_refl).
        -- exact (Hhere _ eq_refl).
      * intro H. injection H as <- <-. exact (Hhere _ eq_refl).
Qed.

(** A body that is not a form is turned down before anything else is
    looked at. *)
Lemma run_other_body (w : World) :
  run (action_from_request OtherBody) w = (Threw TypeError, []).
Proof. reflexivity. Qed.

Lemma run_form_body (entries : list (jsstring * FormDataEntryValue)) (w : World) :
  run (action_from_request (FormBody entries)) w = run (action (readForm entries)) w.
Proof. reflexivity. Qed.

(** The outbound calls of a run, whatever the request: none when the body
    is not a form or a credential is missing; otherwise the completion call,
    once and first, followed by nothing but searches, each to the search
    service with the credentials of the environment and the image search
    type. No search ever goes out before the completion call. *)
Theorem log_shape (requestBody : RequestBody) (w : World) :
  (snd (run (action_from_request requestBody) w) = []
   /\ (requestBody = OtherBody \/ configured (env w) = false))
  \/ (configured (env w) = true
      /\ exists entries terms,
          requestBody = FormBody entries
          /\ snd (run (action_from_request requestBody) w)
             = Post (completionRequest (env w) (queryOf (readForm entries)))
                    :: map (fun t => Get {| get_url := customsearch_url;
                                            key := CUSTOM_SEARCH_KEY (env w);
                                            cx := CUSTOM_SEARCH_CX (env w);
                                            q := t;
                                            searchType := JS.utf16 "image" |}) terms).
Proof.
  destruct requestBody as [entries |].
  - rewrite run_form_body.
    destruct (run_cases (readForm entries) w)
      as [(Hc & m & ->) | [(Hc & r & _ & ->) | [(Hc & d & _ & _ & ->)
         | (Hc & d & terms & _ & _ & [(t & e & _ & ->) | (_ & ->)])]]]; cbn [snd].
    + left. auto.
    + right. split; [assumption |]. now exists entries, [].
    + right. split; [assumption |]. now exists entries, [].
    + right. split; [assumption |]. now exists entries, terms.
    + right. split; [assumption |]. now exists entries, terms.
  - rewrite run_other_body. left. auto.
Qed.





(** When searches fail, the run throws the failure that arrives first:
    the rejection of a term whose latency no other rejected term beats. *)
Theorem earliest_failure_is_thrown
        (request : Request) (w : World) (data : OpenAI.Data) (terms : list JSON)
        (e : Thrown) :
  configured (env w) = true ->
  complete (upstream w) (completionRequest (env w) (queryOf request)) = Resolved data ->
  JSON_parse (firstChoiceText data) = Some (JArray terms) ->
  fst (run (action request) w) = Threw e ->
  exists i t,
    nth_error terms i = Some t
    /\ searchPromise w t = Rejected e
    /\ forall j t' e',
        nth_error terms j = Some t' ->
        searchPromise w t' = Rejected e' ->
        (latency w i <= latency w j)%N.
Proof.
  intros Hconf Hcomplete Hparse.
  rewrite action_configured by assumption. cbn zeta. rewrite Hcomplete, Hparse.
  destruct (first_rejection (latency w) 0 (map (searchPromise w) terms))
    as [[lat e0] |] eqn:Hfirst; cbn [fst]; [| discriminate].
  intros [= <-].
  destruct (first_rejection_index _ _ _ Hfirst) as (i & Hi & ->).
  rewrite nth_error_map in Hi.
  destruct (nth_error terms i) as [t |] eqn:Ht; [| discriminate].
  injection Hi as Hi.
  exists i, t. split; [exact Ht |]. split; [exact Hi |].
  intros j t' e' Hj Hrej.
  apply (first_rejection_earliest _ _ _ Hfirst j (e' := e')).
  now rewrite nth_error_map, Hj, <- Hrej.
Qed.

Lemma earliest_failure_is_thrown_witness :
  let w := Stub.world Stub.credentials (Stub.completes (Some Stub.threePhrases))
                      (fun req => Failed (Stub.phraseOf (q req))) Stub.delays in
  let terms := [JString Stub.volcano; JString Stub.plates; JString Stub.magma] in
  let e := AxiosError (Get (searchRequest Stub.credentials (JString Stub.plates)))
                      Stub.plates in
  exists i t,
    nth_error terms i = Some t
    /\ searchPromise w t = Rejected e
    /\ forall j t' e',
        nth_error terms j = Some t' ->
        searchPromise w t' = Rejected e' ->
        (latency w i <= latency w j)%N.
Proof.
  intros w terms e.
  apply (@earliest_failure_is_thrown
           (lessonRequest Stub.lesson) w
           {| OpenAI.choices := [ {| OpenAI.text := Some Stub.threePhrases |} ] |}
           terms e).
  - reflexivity.
  - reflexivity.
  - vm_compute. reflexivity.
  - vm_compute. reflexivity.
Defined.

(** The values a run can throw, whatever the request: the failure of an
    [invariant], before any call; the failure of the completion call, before
    any search; the failure of a search call; or a [TypeError]. It is never
    the [SyntaxError] of [JSON.parse]: the first parse is guarded by the
    [try], and the second, unguarded one parses what the first accepted. *)
Theorem thrown_values (requestBody : RequestBody) (w : World) (e : Thrown) :
  fst (run (action_from_request requestBody) w) = Threw e ->
  e <> SyntaxError
  /\ ((ConfigurationError e /\ snd (run (action_from_request requestBody) w) = [])
      \/ (UpstreamGenerationError e
          /\ search_calls (snd (run (action_from_request requestBody) w)) = [])
      \/ UpstreamSearchError e
      \/ e = TypeError).
Proof.
  destruct requestBody as [entries |].
  - rewrite run_form_body.
    destruct (run_cases (readForm entries) w)
      as [(Hc & m & ->) | [(Hc & reason & _ & ->) | [(Hc & d & _ & _ & ->)
         | (Hc & d & terms & _ & _ & [(lat & e0 & Hfirst & ->) | (Hnone & ->)])]]];
      cbn [fst snd]; try discriminate.
    + intros [= <-]. split; [discriminate |]. left. split; [now exists m | reflexivity].
    + intros [= <-]. split; [discriminate |]. right; left. split; [| reflexivity].
      unfold UpstreamGenerationError. eauto.
    + intros [= <-].
      apply first_rejection_In in Hfirst.
      apply in_map_iff in Hfirst as (t & Hrej & Hin).
      destruct (searchPromise_rejected w t Hrej) as [(reason & _ & ->) | (Hno & ->)].
      * split; [discriminate |]. right; right; left. unfold UpstreamSearchError. eauto.
      * split; [discriminate |]. now right; right; right.
  - rewrite run_other_body. cbn [fst]. intros [= <-].
    split; [discriminate |]. now right; right; right.
Qed.

Lemma thrown_values_witness :
  let w := Stub.world Stub.credentials (Stub.completes (Some Stub.threePhrases))
                      (Stub.fails_on Stub.plates) Stub.delays in
  let requestBody := FormBody [(JS.utf16 "query", FieldString Stub.lesson)] in
  let e := AxiosError (Get (searchRequest Stub.credentials (JString Stub.plates)))
                      (JS.utf16 "Request failed with status code 503") in
  e <> SyntaxError
  /\ ((ConfigurationError e /\ snd (run (action_from_request requestBody) w) = [])
      \/ (UpstreamGenerationError e
          /\ search_calls (snd (run (action_from_request requestBody) w)) = [])
      \/ UpstreamSearchError e
      \/ e = TypeError).
Proof.
  intros w requestBody e.
  apply (@thrown_values requestBody w e).
  vm_compute. reflexivity.
Defined.

Lemma plainb_plain (phrases : list jsstring) :
  forallb (forallb plainb) phrases = true -> Forall (Forall plain) phrases.
Proof.
  intro H. apply Forall_forall. intros p Hp. apply Forall_forall. intros c Hc.
  rewrite forallb_forall in H. specialize (H p Hp).
  rewrite forallb_forall in H. specialize (H c Hc).
  unfold plainb in H. apply andb_prop in H as [H H92]. apply andb_prop in H as [H32 H34].
  apply N.leb_le in H32. apply negb_true_iff, N.eqb_neq in H34, H92.
  now repeat split.
Qed.

(** From the text of an array to the response: when the completion
    answers with the compact JSON text of any number of phrases made of plain
    code units and every search is answered, the run returns those phrases as
    its terms and as many results as the searches found items. *)
Theorem phrases_end_to_end
        (request : Request) (w : World) (data : OpenAI.Data)
        (phrases : list jsstring) (found : JSON -> list Google.Item) :
  configured (env w) = true ->
  complete (upstream w) (completionRequest (env w) (queryOf request)) = Resolved data ->
  firstChoiceText data = Some (arrayText phrases) ->
  Forall (Forall plain) phrases ->
  (forall p, In p phrases ->
             imageSearch (upstream w) (searchRequest (env w) (JString p))
             = Resolved {| Google.items := Some (found (JString p)) |}) ->
  exists r,
    fst (run (action request) w) = Returned {| body := Aggregated r; status := 200 |}
    /\ searchTerms r = map JString phrases
    /\ results r = flat_map (fun p => map toImageResult (found (JString p))) phrases
    /\ List.length (results r) = total found (map JString phrases).
Proof.
  intros Hconf Hcomplete Hraw Hplain Hfound.
  rewrite (@fanout_success request w data (map JString phrases) found Hconf Hcomplete).
  - eexists. split; [reflexivity |]. cbn [searchTerms results].
    split; [reflexivity |].
    assert (Hres : List.concat (map (fun t => map toImageResult (found t)) (map JString phrases))
                   = flat_map (fun p => map toImageResult (found (JString p))) phrases).
    { rewrite map_map. symmetry. apply flat_map_concat_map. }
    split; [exact Hres |].
    unfold total. clear. induction phrases as [| p phrases IH]; [reflexivity |].
    cbn [map List.concat list_sum]. now rewrite length_app, length_map, IH.
  - rewrite Hraw. now apply JSON_parse_arrayText.
  - intros t Hin. apply in_map_iff in Hin as (p & <- & Hp). auto.
Qed.

Lemma phrases_end_to_end_witness :
  let w := Stub.world Stub.credentials
                      (Stub.completes (Some (arrayText [Stub.volcano; Stub.plates])))
                      Stub.finds Stub.delays in
  exists r,
    fst (run (action (lessonRequest Stub.lesson)) w)
    = Returned {| body := Aggregated r; status := 200 |}
    /\ searchTerms r = map JString [Stub.volcano; Stub.plates]
    /\ results r = flat_map (fun p => map toImageResult (Stub.images (Stub.phraseOf (JString p))))
                            [Stub.volcano; Stub.plates]
    /\ List.length (results r)
       = total (fun t => Stub.images (Stub.phraseOf t)) (map JString [Stub.volcano; Stub.plates]).
Proof.
  intro w.
  apply (@phrases_end_to_end
           (lessonRequest Stub.lesson) w
           {| OpenAI.choices :=
                [ {| OpenAI.text := Some (arrayText [Stub.volcano; Stub.plates]) |} ] |}
           [Stub.volcano; Stub.plates] (fun t => Stub.images (Stub.phraseOf t))).
  - reflexivity.
  - reflexivity.
  - reflexivity.
  - apply plainb_plain. reflexivity.
  - intros p _. reflexivity.
Defined.

(** ** The page *)

Section Rendering.

Lemma flat_map_mapi_one {A B C} (g : B -> list C) (f : A -> nat -> B) (h : A -> nat -> C) :
  (forall x i, g (f x i) = [h x i]) ->
  forall l i, flat_map g (mapi_from f i l) = mapi_from h i l.
Proof.
  intros Hg l. induction l as [| x l IH]; intro i; cbn; [reflexivity |].
  now rewrite Hg, IH.
Qed.

Lemma flat_map_mapi_none {A B C} (g : B -> list C) (f : A -> nat -> B) :
  (forall x i, g (f x i) = []) ->
  forall l i, flat_map g (mapi_from f i l) = [].
Proof.
  intros Hg l. induction l as [| x l IH]; intro i; cbn; [reflexivity |].
  now rewrite Hg, IH.
Qed.

Lemma map_mapi_from {A B C} (k : B -> C) (f : A -> nat -> B) (l : list A) :
  forall i, map k (mapi_from f i l) = mapi_from (fun x i => k (f x i)) i l.
Proof. induction l as [| x l IH]; intro i; cbn; [reflexivity | now rewrite IH]. Qed.

Lemma mapi_from_map {A B} (f : A -> B) (l : list A) :
  forall i, mapi_from (fun x _ => f x) i l = map f l.
Proof. induction l as [| x l IH]; intro i; cbn; [reflexivity | now rewrite IH]. Qed.

Lemma mapi_from_index {A B} (f : nat -> B) (l : list A) :
  forall i, mapi_from (fun _ i => f i) i l = map f (seq i (List.length l)).
Proof. induction l as [| x l IH]; intro i; cbn; [reflexivity | now rewrite IH]. Qed.

(** The text area of the page, whatever the action data. *)
Lemma page_textarea (query : jsstring) (actionData : option Body)
      (navigation : NavigationState) :
  select "textarea" (Search query actionData navigation)
  = [ Element "textarea"
        [ StringAttr "className" (JS.utf16 "h-32 w-full border p-2");
          StringAttr "name" (JS.utf16 "query");
          StringAttr "value" query;
          OnChangeAttr (fun e => target_value e);
          StringAttr "placeholder" (JS.utf16 "Digite o texto da aula aqui") ]
        [] ].
Proof.
  unfold Search, Array_mapi.
  destruct actionData as [[e | r |] |]; cbn -[mapi_from termItem resultItem];
    try reflexivity.
  rewrite (flat_map_mapi_none (select "textarea") termItem (fun _ _ => eq_refl)).
  now rewrite (flat_map_mapi_none (select "textarea") resultItem (fun _ _ => eq_refl)).
Qed.

Variable query : jsstring.
Variable r : AggregatedResponse.
Variable navigation : NavigationState.

Let page := Search query (Some (Aggregated r)) navigation.

Lemma page_values : values page = searchTerms r.
Proof.
  unfold page, Search, Array_mapi. cbn -[mapi_from termItem resultItem].
  rewrite (flat_map_mapi_none values resultItem (fun _ _ => eq_refl)).
  rewrite (flat_map_mapi_one values termItem (fun t _ => t) (fun _ _ => eq_refl)).
  now rewrite !app_nil_r, mapi_from_map, map_id.
Qed.

Lemma page_items : select "li" page = mapi_from termItem 0 (searchTerms r).
Proof.
  unfold page, Search, Array_mapi. cbn -[mapi_from termItem resultItem].
  rewrite (flat_map_mapi_none (select "li") resultItem (fun _ _ => eq_refl)).
  rewrite (flat_map_mapi_one (select "li") termItem termItem (fun _ _ => eq_refl)).
  now rewrite !app_nil_r.
Qed.

Lemma page_images : select "img" page = map imageOf (results r).
Proof.
  unfold page, Search, Array_mapi. cbn -[mapi_from termItem resultItem].
  rewrite (flat_map_mapi_none (select "img") termItem (fun _ _ => eq_refl)).
  rewrite (flat_map_mapi_one (select "img") resultItem (fun x _ => imageOf x)
             (fun _ _ => eq_refl)).
  now rewrite !app_nil_r, mapi_from_map.
Qed.

Lemma page_anchors : select "a" page = map anchorOf (results r).
Proof.
  unfold page, Search, Array_mapi. cbn -[mapi_from termItem resultItem].
  rewrite (flat_map_mapi_none (select "a") termItem (fun _ _ => eq_refl)).
  rewrite (flat_map_mapi_one (select "a") resultItem (fun x _ => anchorOf x)
             (fun _ _ => eq_refl)).
  now rewrite !app_nil_r, mapi_from_map.
Qed.

Lemma page_numbers : numbers page = [List.length (results r)].
Proof.
  unfold page, Search, Array_mapi. cbn -[mapi_from termItem resultItem].
  rewrite (flat_map_mapi_none numbers termItem (fun _ _ => eq_refl)).
  now rewrite (flat_map_mapi_none numbers resultItem (fun _ _ => eq_refl)).
Qed.

End Rendering.

(** The page shows the terms of the response, each once and in order, as
    list items keyed by their index. *)
Theorem terms_are_listed (query : jsstring) (r : AggregatedResponse)
        (navigation : NavigationState) :
  values (Search query (Some (Aggregated r)) navigation) = searchTerms r
  /\ List.length (select "li" (Search query (Some (Aggregated r)) navigation))
     = List.length (searchTerms r)
  /\ map keyOf (select "li" (Search query (Some (Aggregated r)) navigation))
     = map Some (seq 0 (List.length (searchTerms r))).
Proof.
  rewrite page_values, page_items.
  assert (Hkeys : map keyOf (mapi_from termItem 0 (searchTerms r))
                  = map Some (seq 0 (List.length (searchTerms r)))).
  { rewrite map_mapi_from. cbn [keyOf termItem lookupKey].
    apply (mapi_from_index Some). }
  split; [reflexivity |]. split; [| exact Hkeys].
  now rewrite <- (length_map keyOf), Hkeys, length_map, length_seq.
Qed.

(** The page shows one linked image per result, in order: the image's
    source and the link's target are the result's link, the alternative text
    is its title, and the number displayed is the number of images. *)
Theorem results_are_shown (query : jsstring) (r : AggregatedResponse)
        (navigation : NavigationState) :
  let page := Search query (Some (Aggregated r)) navigation in
  numbers page = [List.length (select "img" page)]
  /\ map (attribute "src") (select "img" page) = map (fun x => Some (link x)) (results r)
  /\ map (attribute "alt") (select "img" page) = map (fun x => Some (title x)) (results r)
  /\ map (attribute "href") (select "a" page) = map (fun x => Some (link x)) (results r).
Proof.
  cbv zeta. rewrite page_numbers, page_images, page_anchors, !map_map, length_map.
  repeat split.
Qed.

(** The error of a 400 response is not rendered: the page is the page of
    a visit without any submission, with no term, no number and no image. *)
Theorem error_is_not_rendered (query error : jsstring) (navigation : NavigationState) :
  Search query (Some (ErrorBody error)) navigation = Search query None navigation
  /\ values (Search query (Some (ErrorBody error)) navigation) = []
  /\ numbers (Search query (Some (ErrorBody error)) navigation) = []
  /\ select "img" (Search query (Some (ErrorBody error)) navigation) = [].
Proof. repeat split. Qed.

(** The text area is controlled by the state: a change event sets the
    state to the value typed, and the page rendered from that state shows
    it. *)
Theorem typing_round_trip (query typed : jsstring) (actionData : option Body)
        (navigation : NavigationState) :
  change (Search query actionData navigation) {| target_value := typed |} = Some typed
  /\ map (attribute "value") (select "textarea" (Search typed actionData navigation))
     = [Some typed].
Proof. unfold change. rewrite !page_textarea. split; reflexivity. Qed.


